(** * Offline document processor: text pipeline

    A shallow embedding of [src/document_processor.py]
    (class [OfflineDocumentProcessor]) and the properties of its text
    pipeline: normalisation, segmentation, keyword extraction, relevance
    scoring, summarisation, title extraction and the ranking done by the
    orchestrator.

    Conventions.
    - A Python [str] is a [list ascii]; a character is read as a code point
      in 0..255 and classified as Python classifies that code point
      ([str.isspace], the regular expression class [\w], [str.lower]).
      Code points above 255 are outside the model.
    - A Python [int] is a [Z]; [len] returns a [Z].
    - A Python [float] is a binary64 number, [spec_float] with precision 53
      and maximal exponent 1024; its operations round to nearest even.  An
      [int] compared with a [float] is first converted, which is exact for
      the lengths and counts compared here (below 2^53).
    - Reading the configuration and the documents, the clock and the writing
      of the output are inputs and events of the run ([world], [event]);
      logging is left out. *)

From Stdlib Require Import Ascii String List ZArith Lia Bool Permutation Sorted.
From Stdlib Require Import Floats.SpecFloat.
Import ListNotations.

Local Open Scope Z_scope.

(** ** Characters and strings *)

Definition str := list ascii.

(** A string literal. *)
Definition py (s : string) : str := list_ascii_of_string s.

Definition str_eqb (a b : str) : bool :=
  if list_eq_dec ascii_dec a b then true else false.

Definition len {A : Type} (l : list A) : Z := Z.of_nat (length l).

Definition ord (c : ascii) : N := N_of_ascii c.

Definition in_range (lo hi : N) (c : ascii) : bool :=
  (N.leb lo (ord c) && N.leb (ord c) hi)%bool.

(** [str.isspace] on code points below 256: TAB..CR, FS..US, SPACE, NEL and
    NBSP.  The class [\s] of [re] is the same set. *)
Definition isspace (c : ascii) : bool :=
  (in_range 9 13 c || in_range 28 32 c
   || N.eqb (ord c) 133 || N.eqb (ord c) 160)%bool.

(** The class [\w] of [re] on code points below 256: alphanumeric or
    underscore. *)
Definition isword (c : ascii) : bool :=
  (in_range 48 57 c || in_range 65 90 c || N.eqb (ord c) 95
   || in_range 97 122 c
   || N.eqb (ord c) 170 || in_range 178 179 c || N.eqb (ord c) 181
   || in_range 185 186 c || in_range 188 190 c
   || in_range 192 214 c || in_range 216 246 c || in_range 248 255 c)%bool.

(** [str.lower], one character at a time. *)
Definition lower_char (c : ascii) : ascii :=
  if (in_range 65 90 c || in_range 192 214 c || in_range 216 222 c)%bool
  then ascii_of_N (ord c + 32) else c.

Definition lower (s : str) : str := map lower_char s.

Definition SP : ascii := " "%char.
Definition NL : ascii := "010"%char.

(** [str.lstrip], [str.rstrip], [str.strip] without argument. *)
Fixpoint lstrip (s : str) : str :=
  match s with
  | [] => []
  | c :: s' => if isspace c then lstrip s' else s
  end.

Fixpoint rstrip (s : str) : str :=
  match s with
  | [] => []
  | c :: s' =>
      match rstrip s' with
      | [] => if isspace c then [] else [c]
      | r => c :: r
      end
  end.

Definition strip (s : str) : str := rstrip (lstrip s).

(** Does [s] begin with a character satisfying [p]? *)
Definition starts_with_char (p : ascii -> bool) (s : str) : bool :=
  match s with
  | [] => false
  | c :: _ => p c
  end.

(** The maximal runs of characters satisfying [p], left to right. *)
Fixpoint runs (p : ascii -> bool) (s : str) : list str :=
  match s with
  | [] => []
  | c :: s' =>
      if p c then
        if starts_with_char p s' then
          match runs p s' with
          | w :: ws => (c :: w) :: ws
          | [] => [[c]]
          end
        else [c] :: runs p s'
      else runs p s'
  end.

Definition nonspace (c : ascii) : bool := negb (isspace c).

(** [str.split()] without argument: the maximal runs of non-whitespace. *)
Definition split (s : str) : list str := runs nonspace s.

(** [len(s.split())]. *)
Definition word_count (s : str) : Z := len (split s).

(** [a.startswith(b)]. *)
Fixpoint startswith (s pre : str) : bool :=
  match pre, s with
  | [], _ => true
  | _ :: _, [] => false
  | p :: pre', c :: s' => (Ascii.eqb p c && startswith s' pre')%bool
  end.

(** [sub in s] for strings. *)
Fixpoint contains (s sub : str) : bool :=
  (startswith s sub ||
   match s with
   | [] => false
   | _ :: s' => contains s' sub
   end)%bool.

(** [s.split(sep)] for a non-empty separator: cut at every occurrence of
    [sep], scanning left to right; [skip] counts the characters of the
    separator being consumed. *)
Fixpoint split_on_from (sep : str) (skip : nat) (s : str) : list str :=
  match s with
  | [] => [[]]
  | c :: s' =>
      match skip with
      | S k => split_on_from sep k s'
      | O =>
          if startswith s sep then [] :: split_on_from sep (pred (length sep)) s'
          else match split_on_from sep O s' with
               | w :: ws => (c :: w) :: ws
               | [] => [[c]]
               end
      end
  end.

Definition split_on (sep : str) (s : str) : list str := split_on_from sep O s.

(** [sep.join(l)]. *)
Fixpoint join (sep : str) (l : list str) : str :=
  match l with
  | [] => []
  | [x] => x
  | x :: l' => x ++ sep ++ join sep l'
  end.

(** [s.replace(a, b)] for single characters. *)
Definition replace_char (a b : ascii) (s : str) : str :=
  map (fun c => if Ascii.eqb c a then b else c) s.

(** The slice [l[:k]]: a negative [k] counts from the end. *)
Definition slice_to {A : Type} (k : Z) (l : list A) : list A :=
  if k <? 0 then firstn (Z.to_nat (len l + k)) l else firstn (Z.to_nat k) l.

(** [re.split(d+, s)] for a character class [d]: cut at every maximal run
    of characters of the class; [prev] tells that the previous character
    belonged to such a run. *)
Fixpoint re_split_from (d : ascii -> bool) (prev : bool) (s : str) : list str :=
  match s with
  | [] => [[]]
  | c :: s' =>
      if d c then
        if prev then re_split_from d true s'
        else [] :: re_split_from d true s'
      else match re_split_from d false s' with
           | w :: ws => (c :: w) :: ws
           | [] => [[c]]
           end
  end.

Definition re_split (d : ascii -> bool) (s : str) : list str :=
  re_split_from d false s.

(** ** clean_text *)

(** [re.sub(r'\s+', ' ', text)]: every maximal run of whitespace becomes one
    space (a whitespace character followed by another one is dropped, the
    last one of a run is replaced). *)
Fixpoint sub_ws_runs (s : str) : str :=
  match s with
  | [] => []
  | c :: s' =>
      if isspace c then
        if starts_with_char isspace s' then sub_ws_runs s'
        else SP :: sub_ws_runs s'
      else c :: sub_ws_runs s'
  end.

Definition basic_punct (c : ascii) : bool :=
  existsb (Ascii.eqb c) (py ".,!?;:-()").

(** The characters outside the class [[^\w\s\.\,\!\?\;\:\-\(\)]]. *)
Definition kept (c : ascii) : bool :=
  (isword c || isspace c || basic_punct c)%bool.

(** [re.sub(r'[^\w\s\.\,\!\?\;\:\-\(\)]', ' ', text)]. *)
Definition sub_special (s : str) : str :=
  map (fun c => if kept c then c else SP) s.

Definition clean_text (text : str) : str :=
  let text := sub_ws_runs text in
  let text := sub_special text in
  strip text.

(** ** split_sections *)

Definition mem (x : str) (l : list str) : bool := existsb (str_eqb x) l.

Definition is_empty {A : Type} (l : list A) : bool :=
  match l with [] => true | _ => false end.

(** The class [[.!?]] that ends a sentence. *)
Definition sentence_end (c : ascii) : bool := existsb (Ascii.eqb c) (py ".!?").

(** Stage 1: [[s.strip() for s in text.split("\n\n") if len(s.split()) >= min_words]]. *)
Definition double_newline_sections (text : str) (min_words : Z) : list str :=
  map strip
    (filter (fun s => min_words <=? word_count s) (split_on [NL; NL] text)).

(** Stage 2: the lines meeting the threshold that are not yet in [sections]. *)
Definition single_newline_sections
  (text : str) (min_words : Z) (sections : list str) : list str :=
  map strip
    (filter (fun s => (min_words <=? word_count s) && negb (mem (strip s) sections))%bool
       (split_on [NL] text)).

(** The state of the loop of stage 3: the groups emitted so far, the
    current group and its word count. *)
Record group_state := mk_group_state {
  sentence_groups : list str;
  current_group : list str;
  current_word_count : Z
}.

(** One iteration of [for sentence in sentences]. *)
Definition group_step (min_words : Z) (sections : list str)
  (st : group_state) (sentence : str) : group_state :=
  let sentence := strip sentence in
  if is_empty sentence then st
  else
    let word_count := word_count sentence in
    let current_group := current_group st ++ [sentence] in
    let current_word_count := current_word_count st + word_count in
    if min_words <=? current_word_count then
      let group_text := join (py ". ") current_group ++ py "." in
      mk_group_state
        (if mem group_text sections then sentence_groups st
         else sentence_groups st ++ [group_text])
        [] 0
    else mk_group_state (sentence_groups st) current_group current_word_count.

Definition group_loop (min_words : Z) (sections : list str)
  (sentences : list str) (st : group_state) : group_state :=
  fold_left (group_step min_words sections) sentences st.

(** Stage 3: only [sentence_groups] leaves the loop. *)
Definition sentence_based_sections
  (text : str) (min_words : Z) (sections : list str) : list str :=
  sentence_groups
    (group_loop min_words sections (re_split sentence_end text)
       (mk_group_state [] [] 0)).

(** One iteration of the loop that removes duplicates: [seen] is the set,
    [unique] the list built so far. *)
Definition unique_step (min_words : Z)
  (st : list str * list str) (section : str) : list str * list str :=
  let '(seen, unique) := st in
  if (negb (mem section seen) && (min_words <=? word_count section))%bool
  then (section :: seen, unique ++ [section])
  else st.

Definition unique_sections (min_words : Z) (sections : list str) : list str :=
  snd (fold_left (unique_step min_words) sections ([], [])).

(** The list [sections] after the three stages. *)
Definition candidate_sections (text : str) (min_words : Z) : list str :=
  let sections := [] ++ double_newline_sections text min_words in
  let sections :=
    if len sections <? 3
    then sections ++ single_newline_sections text min_words sections
    else sections in
  if len sections <? 3
  then sections ++ sentence_based_sections text min_words sections
  else sections.

Definition split_sections (text : str) (min_words : Z) : list str :=
  let text := clean_text text in
  let sections := candidate_sections text min_words in
  slice_to 15 (unique_sections min_words sections).

(** ** Stable sorting in descending order

    [list.sort(key=..., reverse=True)] and [heapq.nlargest] keep elements
    with equal keys in their original order.  [gt y x] tells that [y] has a
    strictly larger key than [x]. *)

Section StableSort.
Context {A : Type} (gt : A -> A -> bool).

Fixpoint insert_desc (x : A) (l : list A) : list A :=
  match l with
  | [] => [x]
  | y :: l' => if gt y x then y :: insert_desc x l' else x :: l
  end.

Definition sort_desc (l : list A) : list A := fold_right insert_desc [] l.
End StableSort.

(** ** extract_keywords *)

Definition stop_words : list str := map py
  [ "the"; "a"; "an"; "and"; "or"; "but"; "in"; "on"; "at"; "to"; "for"; "of"; "with"; "by";
    "from"; "as"; "is"; "are"; "was"; "were"; "be"; "been"; "being"; "have"; "has"; "had";
    "do"; "does"; "did"; "will"; "would"; "could"; "should"; "may"; "might"; "can"; "shall";
    "this"; "that"; "these"; "those"; "i"; "you"; "he"; "she"; "it"; "we"; "they"; "me";
    "him"; "her"; "us"; "them"; "my"; "your"; "his"; "her"; "its"; "our"; "their" ]%string.

(** [re.findall(r'\b\w{3,}\b', text)]: the maximal runs of word characters
    that have at least three characters. *)
Definition findall_words (text : str) : list str :=
  filter (fun w => 3 <=? len w) (runs isword text).

(** [Counter]: the counts, keys in the order of their first occurrence. *)
Fixpoint counter_add (w : str) (c : list (str * Z)) : list (str * Z) :=
  match c with
  | [] => [(w, 1)]
  | (k, n) :: c' =>
      if str_eqb k w then (k, n + 1) :: c' else (k, n) :: counter_add w c'
  end.

Definition Counter (words : list str) : list (str * Z) :=
  fold_left (fun c w => counter_add w c) words [].

(** [Counter.most_common(n)]: by descending count, first encountered first
    among equal counts. *)
Definition most_common (n : Z) (c : list (str * Z)) : list (str * Z) :=
  slice_to n (sort_desc (fun y x => snd x <? snd y) c).

Definition extract_keywords (text : str) : list str :=
  let text := clean_text (lower text) in
  let words :=
    filter (fun word => negb (mem word stop_words)) (findall_words text) in
  let word_counts := Counter words in
  map fst (most_common 20 word_counts).

(** ** Floating-point numbers *)

Definition float := spec_float.
Definition prec : Z := 53.
Definition emax : Z := 1024.

Definition fadd : float -> float -> float := SFadd prec emax.
Definition fmul : float -> float -> float := SFmul prec emax.
Definition fdiv : float -> float -> float := SFdiv prec emax.
Definition flt : float -> float -> bool := SFltb.
Definition fle : float -> float -> bool := SFleb.

(** [float(n)] for an [int]; it is exact below 2^53. *)
Definition of_int (n : Z) : float := binary_normalize prec emax n 0 false.

(** The decimal literal [num/den], rounded to the nearest float. *)
Definition literal (num den : Z) : float := fdiv (of_int num) (of_int den).

Definition F0_0 : float := S754_zero false.
Definition F0_3 : float := literal 3 10.
Definition F0_5 : float := literal 5 10.
Definition F0_8 : float := literal 8 10.
Definition F1_0 : float := literal 10 10.
Definition F1_2 : float := literal 12 10.
Definition F1_3 : float := literal 13 10.
Definition F1_5 : float := literal 15 10.
Definition F2_0 : float := literal 20 10.

(** ** calculate_relevance_score *)

Definition domain_keywords : list (str * list str) :=
  [ (py "hr", map py ["employee"; "onboarding"; "compliance"; "form"; "policy"; "training"; "benefits"; "hiring"; "recruitment"; "performance"]%string);
    (py "forms", map py ["fillable"; "interactive"; "field"; "form"; "signature"; "fill"; "sign"; "input"; "checkbox"; "text field"]%string);
    (py "acrobat", map py ["pdf"; "acrobat"; "adobe"; "convert"; "create"; "edit"; "export"; "share"; "signature"; "form"]%string);
    (py "technical", map py ["api"; "code"; "function"; "method"; "parameter"; "configuration"; "setup"; "install"]%string);
    (py "business", map py ["process"; "workflow"; "management"; "strategy"; "planning"; "analysis"; "report"]%string);
    (py "travel", map py ["itinerary"; "booking"; "hotel"; "flight"; "destination"; "travel"; "trip"; "vacation"]%string) ].

Definition action_words : list str := map py
  ["create"; "manage"; "fill"; "sign"; "convert"; "edit"; "export"; "share"; "process"]%string.

Definition instruction_phrases : list str := map py
  ["step"; "how to"; "to create"; "to fill"; "to sign"; "procedure"; "instructions"]%string.

(** [sum(1 for keyword in keywords if keyword in text)]. *)
Definition count_in (keywords : list str) (text : str) : Z :=
  len (filter (fun keyword => contains text keyword) keywords).

(** One iteration of [for domain, keywords in self.domain_keywords.items()]. *)
Definition domain_step (combined_text section_lower : str)
  (score : float) (entry : str * list str) : float :=
  let keywords := snd entry in
  let domain_score := count_in keywords combined_text in
  if 0 <? domain_score then
    let section_domain_score := count_in keywords section_lower in
    fadd score (fmul (of_int section_domain_score) F1_0)
  else score.

Definition calculate_relevance_score (section task_text persona : str) : float :=
  let section_lower := lower section in
  let task_lower := lower task_text in
  let persona_lower := lower persona in
  let score := F0_0 in
  let task_keywords := extract_keywords task_lower in
  let persona_keywords := extract_keywords persona_lower in
  let section_keywords := extract_keywords section_lower in
  let task_matches := count_in task_keywords section_lower in
  let persona_matches := count_in persona_keywords section_lower in
  let score := fadd score (fmul (of_int task_matches) F2_0) in
  let score := fadd score (fmul (of_int persona_matches) F1_5) in
  let combined_text := task_lower ++ py " " ++ persona_lower in
  let score :=
    fold_left (domain_step combined_text section_lower) domain_keywords score in
  let action_matches := count_in action_words section_lower in
  let score := fadd score (fmul (of_int action_matches) F1_5) in
  let word_count := word_count section in
  let score :=
    if 50 <? word_count then fmul score F1_2
    else if word_count <? 20 then fmul score F0_8
    else score in
  let score :=
    if existsb (fun phrase => contains section_lower phrase) instruction_phrases
    then fmul score F1_3
    else score in
  score.

(** ** summarize_text *)

(** [enumerate(l)]. *)
Definition enumerate {A : Type} (start : Z) (l : list A) : list (Z * A) :=
  combine (map (fun i => start + Z.of_nat i) (seq 0 (length l))) l.

(** The score of the sentence of index [i] among [n] sentences. *)
Definition sentence_score (top_keywords : list str) (n : Z) (i : Z) (sentence : str) : float :=
  let score := F0_0 in
  let sentence_words := nodup (list_eq_dec ascii_dec) (extract_keywords sentence) in
  let keyword_overlap :=
    len (filter (fun w => mem w top_keywords) sentence_words) in
  let score := fadd score (of_int (keyword_overlap * 2)) in
  let score :=
    if flt (of_int i) (fmul (of_int n) F0_3) then fadd score (of_int 1) else score in
  let word_count := word_count sentence in
  let score :=
    if ((10 <=? word_count) && (word_count <=? 25))%bool
    then fadd score (of_int 1) else score in
  score.

(** The loop that builds the summary: it stops at the first sentence that
    does not fit. *)
Fixpoint select_sentences (max_length : Z) (current_length : Z)
  (sentence_scores : list (str * float)) : list str :=
  match sentence_scores with
  | [] => []
  | (sentence, _) :: rest =>
      let sentence_length := word_count sentence in
      if current_length + sentence_length <=? max_length
      then sentence :: select_sentences max_length (current_length + sentence_length) rest
      else []
  end.

(** The sentences kept by [summarize_text]: stripped, not empty, more than
    three words. *)
Definition summary_sentences_of (text : str) : list str :=
  map strip
    (filter (fun s => (negb (is_empty (strip s)) && (3 <? word_count s))%bool)
       (re_split sentence_end text)).

Definition scored_sentences (text : str) (sentences : list str) : list (str * float) :=
  let all_words := extract_keywords text in
  let top_keywords := slice_to 10 all_words in
  let sentence_scores :=
    map (fun '(i, sentence) =>
           (sentence, sentence_score top_keywords (len sentences) i sentence))
        (enumerate 0 sentences) in
  sort_desc (fun y x => flt (snd x) (snd y)) sentence_scores.

Definition summarize_text (text : str) (max_length : Z) : str :=
  if word_count text <=? 30 then text
  else
    let sentences := summary_sentences_of text in
    if len sentences <=? 2 then text
    else
      let sentence_scores := scored_sentences text sentences in
      let summary_sentences := select_sentences max_length 0 sentence_scores in
      if is_empty summary_sentences
      then join (py ". ") (slice_to 2 sentences) ++ py "."
      else join (py ". ") summary_sentences ++ py ".".

(** ** extract_title_from_text *)

Definition common_words : list str := map py
  ["the"; "a"; "an"; "and"; "or"; "but"; "in"; "on"; "at"; "to"; "for"; "of"; "with"]%string.

(** [if len(title) > max_length: title = title[:max_length-3] + "..."]. *)
Definition truncate_title (title : str) (max_length : Z) : str :=
  if max_length <? len title
  then slice_to (max_length - 3) title ++ py "..."
  else title.

(** The body of [for line in lines[:5]]: the title returned from this line,
    if the line qualifies. *)
Definition title_of_line (line : str) (max_length : Z) : option str :=
  let line := strip line in
  if (negb (is_empty line) && (3 <=? len (split line)) && (len line <=? 150))%bool
  then
    let line_words := split (lower line) in
    let common_count := len (filter (fun word => mem word common_words) line_words) in
    if flt (of_int common_count) (fmul (of_int (len line_words)) F0_5)
    then Some (truncate_title (strip (replace_char NL SP line)) max_length)
    else None
  else None.

Fixpoint first_title (lines : list str) (max_length : Z) : option str :=
  match lines with
  | [] => None
  | line :: rest =>
      match title_of_line line max_length with
      | Some title => Some title
      | None => first_title rest max_length
      end
  end.

(** The title built from the first twelve words, before the test for the
    empty string. *)
Definition fallback_title (text : str) (max_length : Z) : str :=
  let words := slice_to 12 (split text) in
  let title := replace_char NL SP (join (py " ") words) in
  truncate_title title max_length.

Definition extract_title_from_text (text : str) (max_length : Z) : str :=
  let text := clean_text text in
  let lines := split_on [NL] text in
  match first_title (slice_to 5 lines) max_length with
  | Some title => title
  | None =>
      let title := fallback_title text max_length in
      if is_empty title then py "Content Section" else title
  end.

(** ** process_documents *)

(** A JSON object whose values are strings, as the entries of ["documents"],
    ["persona"] and ["job_to_be_done"] are. *)
Definition dict := list (str * str).

Fixpoint dict_lookup (key : str) (d : dict) : option str :=
  match d with
  | [] => None
  | (k, v) :: d' => if str_eqb k key then Some v else dict_lookup key d'
  end.

(** [d.get(key, default)]. *)
Definition dict_get (key : str) (default : str) (d : dict) : str :=
  match dict_lookup key d with
  | Some v => v
  | None => default
  end.

(** The parsed input configuration; a field is [None] when the key is
    missing. *)
Record input_config := mk_input_config {
  cfg_documents : option (list dict);
  cfg_persona : option dict;
  cfg_job_to_be_done : option dict
}.

Record scored_section := mk_scored_section {
  ss_document : str;
  ss_page_number : Z;
  ss_text : str;
  ss_score : float
}.

Record extracted_section := mk_extracted_section {
  es_document : str;
  es_section_title : str;
  es_importance_rank : Z;
  es_page_number : Z
}.

Record subsection := mk_subsection {
  sa_document : str;
  sa_refined_text : str;
  sa_page_number : Z
}.

Record metadata := mk_metadata {
  md_input_documents : list str;
  md_persona : str;
  md_job_to_be_done : str;
  md_processing_timestamp : str;
  md_processor_version : str
}.

Record output_data := mk_output_data {
  out_metadata : metadata;
  out_extracted_sections : list extracted_section;
  out_subsection_analysis : list subsection
}.

(** What the run reads from outside: the parsed input file ([None] when it
    cannot be read or parsed), which paths exist, the page texts of a PDF
    file ([None] when it cannot be opened), the clock and whether the output
    file can be written. *)
Record world := mk_world {
  load_json : str -> option input_config;
  path_exists : str -> bool;
  pdf_page_texts : str -> option (list str);
  now_isoformat : str;
  writable : str -> bool
}.

(** What the run does to the outside. *)
Inductive event :=
| Open_document (path : str)
| Output_written (path : str) (data : output_data).

Inductive exn := KeyError (key : str).

Inductive outcome (A : Type) :=
| Return (a : A)
| Raise (e : exn).
Arguments Return {A} a.
Arguments Raise {A} e.

(** A computation that may raise and that appends to the trace of events. *)
Definition M (A : Type) : Type := list event -> outcome A * list event.

Definition ret {A : Type} (a : A) : M A := fun tr => (Return a, tr).

Definition bind {A B : Type} (c : M A) (k : A -> M B) : M B :=
  fun tr =>
    match c tr with
    | (Return a, tr') => k a tr'
    | (Raise e, tr') => (Raise e, tr')
    end.

Definition raise {A : Type} (e : exn) : M A := fun tr => (Raise e, tr).

Definition emit (ev : event) : M unit := fun tr => (Return tt, tr ++ [ev]).

Notation "x <- c ;; k" := (bind c (fun x => k))
  (at level 61, c at next level, right associativity).

(** [d[key]]. *)
Definition subscript (d : dict) (key : str) : M str :=
  match dict_lookup key d with
  | Some v => ret v
  | None => raise (KeyError key)
  end.

(** [[f(x) for x in l]] for an [f] that may raise. *)
Fixpoint map_M {A B : Type} (f : A -> M B) (l : list A) : M (list B) :=
  match l with
  | [] => ret []
  | x :: l' => y <- f x ;; ys <- map_M f l' ;; ret (y :: ys)
  end.

(** [extract_text_by_page]: the pages with content, numbered from 1; the
    empty list when the file cannot be opened. *)
Definition extract_text_by_page (w : world) (pdf_path : str) : M (list (Z * str)) :=
  _ <- emit (Open_document pdf_path) ;;
  match pdf_page_texts w pdf_path with
  | Some texts =>
      ret (map (fun '(i, text) => (i + 1, text))
             (filter (fun '(_, text) => negb (is_empty (strip text)))
                (enumerate 0 texts)))
  | None => ret []
  end.

(** The body of [for page_num, page_text in pages]: the records appended to
    [all_scored_sections]. *)
Definition score_page (job_task persona_role filename : str)
  (page : Z * str) : list scored_section :=
  let '(page_num, page_text) := page in
  if is_empty (strip page_text) then []
  else
    let sections := split_sections page_text 15 in
    map (fun section_text =>
           mk_scored_section filename page_num section_text
             (calculate_relevance_score section_text job_task persona_role))
        sections.

(** The body of [for doc_info in documents]. *)
Definition score_document (w : world) (job_task persona_role : str)
  (doc_info : dict) : M (list scored_section) :=
  filename <- subscript doc_info (py "filename") ;;
  if negb (path_exists w filename) then ret []
  else
    pages <- extract_text_by_page w filename ;;
    ret (flat_map (score_page job_task persona_role filename) pages).

(** One iteration of [for i, section_data in enumerate(top_sections, 1)]. *)
Definition format_step
  (acc : list extracted_section * list subsection)
  (entry : Z * scored_section) : list extracted_section * list subsection :=
  let '(extracted_sections, subsection_analysis) := acc in
  let '(i, section_data) := entry in
  let section_title := extract_title_from_text (ss_text section_data) 80 in
  let extracted_sections :=
    extracted_sections ++
      [mk_extracted_section (ss_document section_data) section_title i
         (ss_page_number section_data)] in
  let refined_text := summarize_text (ss_text section_data) 200 in
  let subsection_analysis :=
    subsection_analysis ++
      [mk_subsection (ss_document section_data) refined_text
         (ss_page_number section_data)] in
  (extracted_sections, subsection_analysis).

(** The global ranking: sort by score, keep the first [top_k_sections]. *)
Definition rank_sections (all_scored_sections : list scored_section)
  (top_k_sections : Z) : list scored_section :=
  let all_scored_sections :=
    sort_desc (fun y x => flt (ss_score x) (ss_score y)) all_scored_sections in
  slice_to top_k_sections all_scored_sections.

Definition format_output (top_sections : list scored_section)
  : list extracted_section * list subsection :=
  fold_left format_step (enumerate 1 top_sections) ([], []).

Definition process_documents (w : world)
  (input_json_path output_path : str) (top_k_sections : Z) : M unit :=
  match load_json w input_json_path with
  | None => ret tt
  | Some input_config =>
      let documents :=
        match cfg_documents input_config with Some l => l | None => [] end in
      let persona_info :=
        match cfg_persona input_config with Some d => d | None => [] end in
      let job_info :=
        match cfg_job_to_be_done input_config with Some d => d | None => [] end in
      let persona_role :=
        dict_get (py "role") (dict_get (py "persona") (py "User") persona_info)
          persona_info in
      let job_task :=
        dict_get (py "task")
          (dict_get (py "description") (py "Process documents") job_info)
          job_info in
      input_documents <- map_M (fun doc => subscript doc (py "filename")) documents ;;
      let metadata :=
        mk_metadata input_documents persona_role job_task (now_isoformat w)
          (py "offline_v1.0") in
      let task_context := persona_role ++ py ": " ++ job_task in
      scored <- map_M (score_document w job_task persona_role) documents ;;
      let all_scored_sections := concat scored in
      let top_sections := rank_sections all_scored_sections top_k_sections in
      let '(extracted_sections, subsection_analysis) := format_output top_sections in
      let output_data :=
        mk_output_data metadata extracted_sections subsection_analysis in
      if writable w output_path
      then emit (Output_written output_path output_data)
      else ret tt
  end.

(** ** Auxiliary predicates used in the statements *)

(** Does [s] end with a character satisfying [p]? *)
Definition ends_with_char (p : ascii -> bool) (s : str) : bool :=
  starts_with_char p (rev s).

(** No two consecutive whitespace characters. *)
Fixpoint no_ws_run (s : str) : bool :=
  match s with
  | [] => true
  | c :: s' =>
      (negb (isspace c && starts_with_char isspace s') && no_ws_run s')%bool
  end.


(** The sum of the word counts of a list of strings. *)
Definition total_words (l : list str) : Z :=
  fold_right (fun s acc => word_count s + acc) 0 l.

(** Removing duplicates, the first occurrence of each string kept. *)
Fixpoint dedup_first (l : list str) : list str :=
  match l with
  | [] => []
  | x :: l' => x :: filter (fun y => negb (str_eqb y x)) (dedup_first l')
  end.

(** The end of [split_sections] as the specification words it: the
    candidates are deduplicated with first occurrences kept, filtered again
    by the threshold and truncated to 15. *)
Definition split_sections_spec (text : str) (min_words : Z) : list str :=
  firstn 15
    (filter (fun s => min_words <=? word_count s)
       (dedup_first (candidate_sections (clean_text text) min_words))).

(** The sections that the deduplication loop appends while it reads [l],
    when it starts with the set [seen]. *)
Fixpoint appended (min_words : Z) (seen : list str) (l : list str) : list str :=
  match l with
  | [] => []
  | x :: l' =>
      if (negb (mem x seen) && (min_words <=? word_count x))%bool
      then x :: appended min_words (x :: seen) l'
      else appended min_words seen l'
  end.

(** A page of sixteen words used in examples: a sentence of fifteen words
    followed by one more word. *)
Definition example_page : str :=
  py "One two three four five six seven eight nine ten eleven twelve thirteen fourteen fifteen. tail".

(** A text of 201 words without any sentence punctuation. *)
Definition long_text : str := concat (repeat (py "word ") 201).

(** A text of 33 words in three sentences of eleven words. *)
Definition three_sentences : str :=
  py "a1 a2 a3 a4 a5 a6 a7 a8 a9 a10 a11. b1 b2 b3 b4 b5 b6 b7 b8 b9 b10 b11. c1 c2 c3 c4 c5 c6 c7 c8 c9 c10 c11.".

(** ** The relevance score as the specification words it *)

Definition is_nan (x : float) : bool :=
  match x with S754_nan => true | _ => false end.

Definition float_eq_dec (a b : float) : {a = b} + {a <> b}.
Proof.
  decide equality; (apply Z.eq_dec || apply Pos.eq_dec || apply bool_dec).
Defined.

Definition float_eqb (a b : float) : bool :=
  if float_eq_dec a b then true else false.

(** The float of value [n/2]. *)
Definition of_halves (n : Z) : float := binary_normalize prec emax n (-1) false.

(** The domain bonus: for each activated domain, the number of its keywords
    found in the section. *)
Definition domain_bonus (combined_text section_lower : str)
  (domains : list (str * list str)) : Z :=
  fold_right Z.add 0
    (map (fun entry =>
            if 0 <? count_in (snd entry) combined_text
            then count_in (snd entry) section_lower
            else 0)
       domains).

(** The additive part of the score, counted in halves:
    [task_matches * 2.0 + persona_matches * 1.5 + domain bonus * 1.0
     + action_matches * 1.5]. *)
Definition additive_halves (section task_text persona : str) : Z :=
  let section_lower := lower section in
  4 * count_in (extract_keywords (lower task_text)) section_lower
  + 3 * count_in (extract_keywords (lower persona)) section_lower
  + 2 * domain_bonus (lower task_text ++ py " " ++ lower persona)
          section_lower domain_keywords
  + 3 * count_in action_words section_lower.

(** The class of the section length: 2 above 50 words, 0 below 20, 1
    otherwise. *)
Definition length_class (section : str) : Z :=
  if 50 <? word_count section then 2
  else if word_count section <? 20 then 0
  else 1.

Definition instructional (section : str) : bool :=
  existsb (fun phrase => contains (lower section) phrase) instruction_phrases.

(** The two multiplicative steps applied to the additive total [n/2]. *)
Definition boosted (n : Z) (length_class : Z) (instructional : bool) : float :=
  let score := of_halves n in
  let score :=
    if length_class =? 2 then fmul score F1_2
    else if length_class =? 0 then fmul score F0_8
    else score in
  if instructional then fmul score F1_3 else score.

Definition relevance_score_spec (section task_text persona : str) : float :=
  boosted (additive_halves section task_text persona)
    (length_class section) (instructional section).

(** The integers [0 .. n-1]. *)
Definition range (n : nat) : list Z := map Z.of_nat (seq 0 n).

(** Adding [k] times the weight [w] to the total [n/2] is exact and gives
    [(n + u * k)/2]. *)
Definition exact_add_ok (w : float) (u : Z) (n k : Z) : bool :=
  float_eqb (fadd (of_halves n) (fmul (of_int k) w)) (of_halves (n + u * k)).

(** The boosted score is not negative and grows with the total, with the
    length class and with the instructional boost. *)
Definition boosted_ok (n lc : Z) (b : bool) : bool :=
  (fle F0_0 (boosted n lc b)
   && fle (boosted n lc b) (boosted (n + 1) lc b)
   && ((2 <=? lc) || fle (boosted n lc b) (boosted n (lc + 1) b))
   && fle (boosted n lc b) (boosted n lc true))%bool.

(** The number of keywords of a list of domains. *)
Definition domain_size (domains : list (str * list str)) : Z :=
  fold_right Z.add 0 (map (fun entry => len (snd entry)) domains).

(** ** The output of the ranking, entry by entry *)

(** [gt] for the global sort: [y] has a strictly larger score than [x]. *)
Definition score_gt (y x : scored_section) : bool :=
  flt (ss_score x) (ss_score y).

Definition extracted_entry (entry : Z * scored_section) : extracted_section :=
  mk_extracted_section (ss_document (snd entry))
    (extract_title_from_text (ss_text (snd entry)) 80) (fst entry)
    (ss_page_number (snd entry)).

Definition subsection_entry (section_data : scored_section) : subsection :=
  mk_subsection (ss_document section_data)
    (summarize_text (ss_text section_data) 200) (ss_page_number section_data).

(** Two sections of two documents with the same text, hence the same score,
    and a third one that scores higher. *)
Definition example_task : str := py "create onboarding forms".
Definition example_persona : str := py "HR Manager".

Definition example_scored (document : str) (page : Z) (text : str) : scored_section :=
  mk_scored_section document page text
    (calculate_relevance_score text example_task example_persona).

Definition example_sections : list scored_section :=
  [ example_scored (py "a.pdf") 1 (py "nothing relevant here");
    example_scored (py "b.pdf") 2 (py "nothing relevant here");
    example_scored (py "b.pdf") 3 (py "how to create onboarding forms") ].

(** A run whose configuration lists a document without ["filename"]. *)
Definition example_config : input_config :=
  mk_input_config
    (Some [ [(py "filename", py "a.pdf")]; [(py "title", py "Untitled")] ])
    (Some [(py "role", py "HR Manager")])
    (Some [(py "task", py "create onboarding forms")]).

Definition example_world : world :=
  mk_world (fun _ => Some example_config) (fun _ => true)
    (fun _ => Some [example_page]) (py "2024-01-01T00:00:00") (fun _ => true).

(** ** main *)


(** ** Auxiliary definitions for the properties of the other functions *)

(** The tokens that [extract_keywords] counts: the words of at least three
    characters of the normalised lowercased text that are not stop words. *)
Definition keyword_tokens (text : str) : list str :=
  filter (fun word => negb (mem word stop_words))
    (findall_words (clean_text (lower text))).

(** The count that a [Counter] holds for a key, 0 when the key is absent. *)
Fixpoint counter_get (key : str) (c : list (str * Z)) : Z :=
  match c with
  | [] => 0
  | (k, n) :: c' => if str_eqb k key then n else counter_get key c'
  end.

(** The number of occurrences of a string in a list. *)
Definition occurrences (l : list str) (x : str) : Z :=
  Z.of_nat (count_occ (list_eq_dec ascii_dec) l x).

(** The pages that [extract_text_by_page] returns for a path. *)
Definition pages_of (w : world) (pdf_path : str) : list (Z * str) :=
  match pdf_page_texts w pdf_path with
  | Some texts =>
      map (fun '(i, text) => (i + 1, text))
        (filter (fun '(_, text) => negb (is_empty (strip text)))
           (enumerate 0 texts))
  | None => []
  end.






(** The events of a trace that write an output. *)
Definition is_output (ev : event) : bool :=
  match ev with Output_written _ _ => true | Open_document _ => false end.

(** A total of zero gives the score 0.0 and any other total a positive
    score. *)
Definition positive_ok (n lc : Z) (b : bool) : bool :=
  if n =? 0 then float_eqb (boosted n lc b) F0_0
  else flt F0_0 (boosted n lc b).

(** What the loop of the sentence stage keeps true. *)
Definition group_invariant (min_words : Z) (sections : list str)
  (st : group_state) : Prop :=
  Forall (fun g => min_words <= word_count g /\
                   (exists body, g = body ++ py ".") /\
                   ~ In g sections) (sentence_groups st) /\
  Forall (fun x => x <> [] /\ ends_with_char isspace x = false) (current_group st) /\
  current_word_count st = total_words (current_group st).

(** * Properties *)

(** ** Strings *)

Lemma str_eqb_eq (a b : str) : str_eqb a b = true <-> a = b.
Proof.
  unfold str_eqb. destruct (list_eq_dec ascii_dec a b); split; congruence.
Qed.

Lemma str_eqb_refl (a : str) : str_eqb a a = true.
Proof. now apply str_eqb_eq. Qed.

Lemma mem_In (x : str) (l : list str) : mem x l = true <-> In x l.
Proof.
  unfold mem. rewrite existsb_exists. split.
  - intros [y [Hy He]]. apply str_eqb_eq in He. now subst.
  - intros H. exists x. split; [assumption | apply str_eqb_refl].
Qed.

Lemma len_nonneg {A : Type} (l : list A) : 0 <= len l.
Proof. unfold len. lia. Qed.

Lemma len_app {A : Type} (l1 l2 : list A) : len (l1 ++ l2) = len l1 + len l2.
Proof. unfold len. rewrite length_app. lia. Qed.

Lemma isspace_SP : isspace SP = true.
Proof. reflexivity. Qed.

Lemma kept_SP : kept SP = true.
Proof. reflexivity. Qed.

(** *** strip *)

Lemma lstrip_suffix (s : str) :
  exists ws, s = ws ++ lstrip s /\ Forall (fun c => isspace c = true) ws.
Proof.
  induction s as [|c s IH]; simpl.
  - exists []. split; [reflexivity | constructor].
  - destruct (isspace c) eqn:Hc.
    + destruct IH as [ws [E F]]. exists (c :: ws). split.
      * simpl. now rewrite <- E.
      * now constructor.
    + exists []. split; [reflexivity | constructor].
Qed.

Lemma rstrip_prefix (s : str) :
  exists ws, s = rstrip s ++ ws /\ Forall (fun c => isspace c = true) ws.
Proof.
  induction s as [|c s IH]; simpl.
  - exists []. split; [reflexivity | constructor].
  - destruct IH as [ws [E F]]. destruct (rstrip s) as [|r rs] eqn:Hr.
    + simpl in E. subst ws. destruct (isspace c) eqn:Hc.
      * exists (c :: s). split; [reflexivity | now constructor].
      * exists s. split; [reflexivity | assumption].
    + exists ws. split; [simpl; f_equal; assumption | assumption].
Qed.

Lemma lstrip_Forall (P : ascii -> Prop) (s : str) :
  Forall P s -> Forall P (lstrip s).
Proof.
  intros H. destruct (lstrip_suffix s) as [ws [E _]].
  rewrite E in H. now apply Forall_app in H.
Qed.

Lemma rstrip_Forall (P : ascii -> Prop) (s : str) :
  Forall P s -> Forall P (rstrip s).
Proof.
  intros H. destruct (rstrip_prefix s) as [ws [E _]].
  rewrite E in H. now apply Forall_app in H.
Qed.

Lemma strip_Forall (P : ascii -> Prop) (s : str) :
  Forall P s -> Forall P (strip s).
Proof. intros H. unfold strip. now apply rstrip_Forall, lstrip_Forall. Qed.

Lemma lstrip_head (s : str) : starts_with_char isspace (lstrip s) = false.
Proof.
  induction s as [|c s IH]; simpl; [reflexivity|].
  destruct (isspace c) eqn:Hc; [assumption | simpl; assumption].
Qed.

Lemma rstrip_head (s : str) :
  starts_with_char isspace s = false ->
  starts_with_char isspace (rstrip s) = false.
Proof.
  destruct s as [|c s]; simpl; [reflexivity|].
  intros Hc. destruct (rstrip s); [rewrite Hc|]; simpl; auto.
Qed.

(** A stripped string does not begin with whitespace. *)
Lemma strip_head (s : str) : starts_with_char isspace (strip s) = false.
Proof. unfold strip. apply rstrip_head, lstrip_head. Qed.

Lemma ends_with_char_cons (p : ascii -> bool) (c : ascii) (s : str) :
  ends_with_char p (c :: s) = if is_empty s then p c else ends_with_char p s.
Proof.
  unfold ends_with_char. simpl. destruct s as [|d s]; [reflexivity|].
  simpl. destruct (rev s ++ [d]) eqn:E.
  - now destruct (rev s).
  - reflexivity.
Qed.

Lemma rstrip_last (s : str) : ends_with_char isspace (rstrip s) = false.
Proof.
  induction s as [|c s IH]; [reflexivity|]. simpl.
  destruct (rstrip s) as [|r rs] eqn:Hr.
  - destruct (isspace c) eqn:Hc; [reflexivity|].
    unfold ends_with_char. simpl. assumption.
  - rewrite ends_with_char_cons. simpl. assumption.
Qed.

(** A stripped string does not end with whitespace. *)
Lemma strip_last (s : str) : ends_with_char isspace (strip s) = false.
Proof. unfold strip. apply rstrip_last. Qed.

Lemma lstrip_id (s : str) :
  starts_with_char isspace s = false -> lstrip s = s.
Proof. destruct s as [|c s]; simpl; [reflexivity|]. now intros ->. Qed.

Lemma rstrip_id (s : str) :
  ends_with_char isspace s = false -> rstrip s = s.
Proof.
  induction s as [|c s IH]; [reflexivity|].
  rewrite ends_with_char_cons. simpl. destruct s as [|d s].
  - simpl. now intros ->.
  - simpl is_empty. intros H. rewrite (IH H). reflexivity.
Qed.

Lemma strip_idempotent (s : str) : strip (strip s) = strip s.
Proof.
  unfold strip at 1. rewrite lstrip_id by apply strip_head.
  apply rstrip_id, strip_last.
Qed.

(** *** Whitespace runs *)

Lemma sub_ws_runs_head (s : str) :
  match s with
  | [] => sub_ws_runs s = []
  | d :: _ => exists r, sub_ws_runs s = (if isspace d then SP else d) :: r
  end.
Proof.
  induction s as [|c s IH]; [reflexivity|]. simpl.
  destruct (isspace c) eqn:Hc; [|eauto].
  destruct s as [|d s]; simpl starts_with_char; [eauto|].
  destruct (isspace d) eqn:Hd; [|eauto].
  destruct IH as [r E]. rewrite E. eauto.
Qed.

Lemma sub_ws_runs_starts (s : str) :
  starts_with_char isspace (sub_ws_runs s) = starts_with_char isspace s.
Proof.
  pose proof (sub_ws_runs_head s) as H. destruct s as [|d s].
  - now rewrite H.
  - destruct H as [r E]. rewrite E. simpl.
    destruct (isspace d) eqn:Hd; [reflexivity | assumption].
Qed.

(** After [re.sub(r'\s+', ' ', text)] the only whitespace is the space. *)
Lemma sub_ws_runs_only_SP (s : str) :
  Forall (fun c => isspace c = true -> c = SP) (sub_ws_runs s).
Proof.
  induction s as [|c s IH]; simpl; [constructor|].
  destruct (isspace c) eqn:Hc.
  - destruct (starts_with_char isspace s); [assumption|].
    constructor; [reflexivity | assumption].
  - constructor; [congruence | assumption].
Qed.

Lemma sub_ws_runs_no_run (s : str) : no_ws_run (sub_ws_runs s) = true.
Proof.
  induction s as [|c s IH]; simpl; [reflexivity|].
  destruct (isspace c) eqn:Hc.
  - destruct (starts_with_char isspace s) eqn:Hs; [assumption|].
    simpl. rewrite sub_ws_runs_starts, Hs, IH. reflexivity.
  - simpl. rewrite Hc, IH. reflexivity.
Qed.

Lemma sub_ws_runs_kept (s : str) :
  Forall (fun c => kept c = true) s ->
  Forall (fun c => kept c = true) (sub_ws_runs s).
Proof.
  induction 1 as [|c s Hc Hs IH]; simpl; [constructor|].
  destruct (isspace c).
  - destruct (starts_with_char isspace s); [assumption|].
    constructor; [reflexivity | assumption].
  - now constructor.
Qed.

Lemma sub_special_kept (s : str) :
  Forall (fun c => kept c = true) (sub_special s).
Proof.
  unfold sub_special. apply Forall_forall. intros c Hc.
  apply in_map_iff in Hc. destruct Hc as [d [E _]].
  destruct (kept d) eqn:Hd; subst; [assumption | reflexivity].
Qed.

Lemma sub_special_id (s : str) :
  Forall (fun c => kept c = true) s -> sub_special s = s.
Proof.
  unfold sub_special. induction 1 as [|c s Hc Hs IH]; simpl; [reflexivity|].
  now rewrite Hc, IH.
Qed.

Lemma sub_special_only_SP (s : str) :
  Forall (fun c => isspace c = true -> c = SP) s ->
  Forall (fun c => isspace c = true -> c = SP) (sub_special s).
Proof.
  unfold sub_special. induction 1 as [|c s Hc Hs IH]; simpl; [constructor|].
  constructor; [|assumption]. destruct (kept c); [assumption | reflexivity].
Qed.

Lemma no_ws_run_app_inv (a b : str) :
  no_ws_run (a ++ b) = true -> no_ws_run a = true /\ no_ws_run b = true.
Proof.
  induction a as [|c a IH]; simpl; [auto|].
  rewrite !andb_true_iff, !negb_true_iff. intros [H1 H2].
  destruct (IH H2) as [Ha Hb]. repeat split; try assumption.
  destruct (isspace c); [|reflexivity]. simpl in *.
  destruct a; [reflexivity | exact H1].
Qed.

Lemma strip_no_ws_run (s : str) :
  no_ws_run s = true -> no_ws_run (strip s) = true.
Proof.
  intros H. unfold strip.
  destruct (lstrip_suffix s) as [ws [E _]]. rewrite E in H.
  apply no_ws_run_app_inv in H. destruct H as [_ H].
  destruct (rstrip_prefix (lstrip s)) as [ws' [E' _]]. rewrite E' in H.
  now apply no_ws_run_app_inv in H.
Qed.

(** *** clean_text *)

Lemma clean_text_kept (s : str) :
  Forall (fun c => kept c = true) (clean_text s).
Proof. unfold clean_text. apply strip_Forall, sub_special_kept. Qed.

Lemma clean_text_only_SP (s : str) :
  Forall (fun c => isspace c = true -> c = SP) (clean_text s).
Proof.
  unfold clean_text. apply strip_Forall, sub_special_only_SP, sub_ws_runs_only_SP.
Qed.

(** The output of [clean_text] has no newline. *)
Lemma clean_text_no_NL (s : str) : ~ In NL (clean_text s).
Proof.
  intros H. pose proof (clean_text_only_SP s) as F.
  rewrite Forall_forall in F. specialize (F NL H eq_refl). discriminate.
Qed.

Lemma clean_text_stripped (s : str) : strip (clean_text s) = clean_text s.
Proof. unfold clean_text. apply strip_idempotent. Qed.

(** *** Runs and words *)

Section Runs.
Variable p : ascii -> bool.

Lemma runs_starts (s : str) :
  starts_with_char p s = true -> exists w ws, runs p s = w :: ws.
Proof.
  destruct s as [|c s]; simpl; [discriminate|]. intros ->.
  destruct (starts_with_char p s); [|eauto].
  destruct (runs p s); eauto.
Qed.

Lemma length_runs_cons (c : ascii) (s : str) :
  length (runs p (c :: s)) =
  if (p c && negb (starts_with_char p s))%bool
  then S (length (runs p s)) else length (runs p s).
Proof.
  simpl. destruct (p c); [|reflexivity].
  destruct (starts_with_char p s) eqn:Hs; [|reflexivity].
  destruct (runs_starts s Hs) as [w [ws E]]. now rewrite E.
Qed.

Lemma runs_cons (c : ascii) (s : str) :
  runs p (c :: s) =
  if p c then
    if starts_with_char p s then
      match runs p s with
      | w :: ws => (c :: w) :: ws
      | [] => [[c]]
      end
    else [c] :: runs p s
  else runs p s.
Proof. reflexivity. Qed.

Lemma runs_app_sep (a b : str) :
  starts_with_char p b = false -> runs p (a ++ b) = runs p a ++ runs p b.
Proof.
  intros Hb. induction a as [|c a IH]; [reflexivity|].
  change ((c :: a) ++ b) with (c :: (a ++ b)).
  rewrite !runs_cons, IH. destruct (p c); [|reflexivity].
  destruct a as [|d a].
  - simpl. now rewrite Hb.
  - change (starts_with_char p ((d :: a) ++ b)) with (starts_with_char p (d :: a)).
    destruct (starts_with_char p (d :: a)) eqn:Hs; [|reflexivity].
    destruct (runs_starts _ Hs) as [w [ws E]]. now rewrite E.
Qed.

Lemma starts_with_char_app (a b : str) :
  a <> [] -> starts_with_char p (a ++ b) = starts_with_char p a.
Proof. destruct a; [congruence | reflexivity]. Qed.


Lemma length_runs_snoc (a : str) (c : ascii) :
  ends_with_char p a = true -> p c = true ->
  length (runs p (a ++ [c])) = length (runs p a).
Proof.
  intros Ha Hc. induction a as [|d a IH]; [discriminate|].
  rewrite ends_with_char_cons in Ha.
  change ((d :: a) ++ [c]) with (d :: (a ++ [c])).
  rewrite !length_runs_cons. destruct a as [|e a].
  - simpl in *. rewrite Ha, Hc. reflexivity.
  - simpl is_empty in Ha. rewrite (IH Ha).
    now rewrite starts_with_char_app by discriminate.
Qed.

Lemma runs_none (s : str) :
  Forall (fun c => p c = false) s -> runs p s = [].
Proof.
  induction 1 as [|c s Hc Hs IH]; [reflexivity|]. simpl. now rewrite Hc.
Qed.
End Runs.

Lemma split_lstrip (s : str) : split (lstrip s) = split s.
Proof.
  unfold split. induction s as [|c s IH]; [reflexivity|]. simpl lstrip.
  destruct (isspace c) eqn:Hc; [|reflexivity].
  rewrite IH. simpl. unfold nonspace at 2. now rewrite Hc.
Qed.

Lemma split_rstrip (s : str) : split (rstrip s) = split s.
Proof.
  unfold split. destruct (rstrip_prefix s) as [ws [E F]].
  rewrite E at 2. rewrite runs_app_sep.
  - rewrite (runs_none nonspace ws), app_nil_r; [reflexivity|].
    eapply Forall_impl; [|exact F]. unfold nonspace. now intros c ->.
  - destruct F as [|c ws Hc _]; [reflexivity|]. simpl. unfold nonspace. now rewrite Hc.
Qed.

Lemma split_strip (s : str) : split (strip s) = split s.
Proof. unfold strip. now rewrite split_rstrip, split_lstrip. Qed.

Lemma word_count_strip (s : str) : word_count (strip s) = word_count s.
Proof. unfold word_count. now rewrite split_strip. Qed.

Lemma word_count_nonneg (s : str) : 0 <= word_count s.
Proof. apply len_nonneg. Qed.


Lemma word_count_app_space (a b : str) :
  starts_with_char isspace b = true ->
  word_count (a ++ b) = word_count a + word_count b.
Proof.
  intros Hb. unfold word_count, split. rewrite runs_app_sep, len_app; [reflexivity|].
  destruct b as [|c b]; [discriminate|]. simpl in *. unfold nonspace. now rewrite Hb.
Qed.

Lemma ends_nonspace (s : str) :
  s <> [] -> ends_with_char isspace s = false -> ends_with_char nonspace s = true.
Proof.
  unfold ends_with_char. intros Hs H. destruct (rev s) as [|c r] eqn:E.
  - apply (f_equal (@rev ascii)) in E. rewrite rev_involutive in E. contradiction.
  - simpl in *. unfold nonspace. now rewrite H.
Qed.

(** A sentence followed by a full stop and a space counts its own words. *)
Lemma word_count_sentence (x rest : str) :
  x <> [] -> ends_with_char isspace x = false ->
  word_count (x ++ py ". " ++ rest) = word_count x + word_count rest.
Proof.
  intros Hx He.
  change (x ++ py ". " ++ rest) with (x ++ ["."%char] ++ (SP :: rest)).
  rewrite app_assoc, word_count_app_space by reflexivity.
  assert (E : word_count (x ++ ["."%char]) = word_count x).
  { unfold word_count, len, split. f_equal.
    apply length_runs_snoc; [now apply ends_nonspace | reflexivity]. }
  rewrite E. reflexivity.
Qed.

Lemma word_count_full_stop (x : str) :
  x <> [] -> ends_with_char isspace x = false ->
  word_count (x ++ py ".") = word_count x.
Proof.
  intros Hx He. unfold word_count, len, split. f_equal.
  apply length_runs_snoc; [now apply ends_nonspace | reflexivity].
Qed.

(** The words of [". ".join(l) + "."] are those of the sentences of [l]. *)
Lemma word_count_join_sentences (l : list str) :
  l <> [] ->
  Forall (fun x => x <> [] /\ ends_with_char isspace x = false) l ->
  word_count (join (py ". ") l ++ py ".") = total_words l.
Proof.
  intros Hl F. revert Hl. induction F as [|x l [Hx He] F IH]; intros Hl; [now contradiction Hl|].
  destruct l as [|y l].
  - simpl. rewrite word_count_full_stop by assumption. lia.
  - change (join (py ". ") (x :: y :: l)) with (x ++ py ". " ++ join (py ". ") (y :: l)).
    rewrite <- !app_assoc, word_count_sentence by assumption.
    rewrite IH by discriminate. reflexivity.
Qed.

(** The words of the normalised text are the words of the input in which
    every special character has been replaced by a space. *)
Lemma split_sub_special_runs (s : str) :
  split (sub_special (sub_ws_runs s)) = split (sub_special s).
Proof.
  unfold split, sub_special.
  set (f := fun c : ascii => if kept c then c else SP).
  assert (Hf : forall c, isspace c = true -> nonspace (f c) = false).
  { intros c Hc. unfold f, kept. rewrite Hc, orb_true_r. simpl.
    unfold nonspace. now rewrite Hc. }
  induction s as [|c s IH]; [reflexivity|].
  simpl sub_ws_runs. destruct (isspace c) eqn:Hc.
  - simpl map at 2. rewrite (runs_cons nonspace (f c)), (Hf c Hc).
    destruct (starts_with_char isspace s); [exact IH|].
    simpl map. rewrite runs_cons.
    replace (nonspace (f SP)) with false by reflexivity. exact IH.
  - simpl map. rewrite !runs_cons, IH.
    replace (starts_with_char nonspace (map f (sub_ws_runs s)))
      with (starts_with_char nonspace (map f s)); [reflexivity|].
    pose proof (sub_ws_runs_head s) as H. destruct s as [|d s].
    + now rewrite H.
    + destruct H as [r E]. rewrite E. simpl.
      destruct (isspace d) eqn:Hd; [|reflexivity].
      rewrite (Hf d Hd). reflexivity.
Qed.





(** *** Splitting a text that has no newline *)

Lemma split_on_no_NL (sep : str) (s : str) :
  ~ In NL s -> split_on (NL :: sep) s = [s].
Proof.
  unfold split_on. induction s as [|c s IH]; intros H; [reflexivity|].
  cbn [split_on_from startswith]. destruct (Ascii.eqb NL c) eqn:E.
  - apply Ascii.eqb_eq in E. subst c. exfalso. apply H. now left.
  - cbn [andb]. rewrite IH; [reflexivity|]. intros Hin. apply H. now right.
Qed.

Lemma slice_to_nonneg {A : Type} (k : Z) (l : list A) :
  0 <= k -> slice_to k l = firstn (Z.to_nat k) l.
Proof. intros H. unfold slice_to. destruct (Z.ltb_spec k 0); [lia | reflexivity]. Qed.

(** C9: the output of [clean_text] has no newline; so the first two stages
    of [split_sections] see one line and yield together at most one
    candidate, the whole normalised text when it has at least [min_words]
    words; the number of candidates is then below 3 and the
    sentence-accumulation stage always runs; and [extract_title_from_text]
    scans exactly one line. *)
Theorem clean_text_single_line (page_text : str) (min_words : Z) :
  let text := clean_text page_text in
  let stage1 := double_newline_sections text min_words in
  let stage2 := single_newline_sections text min_words stage1 in
  ~ In NL text /\
  split_on [NL; NL] text = [text] /\
  split_on [NL] text = [text] /\
  stage1 ++ stage2 = (if min_words <=? word_count text then [text] else []) /\
  len (stage1 ++ stage2) < 3 /\
  candidate_sections text min_words =
    (stage1 ++ stage2) ++ sentence_based_sections text min_words (stage1 ++ stage2) /\
  slice_to 5 (split_on [NL] text) = [text].
Proof.
  intros text stage1 stage2.
  pose proof (clean_text_no_NL page_text) as HNL. fold text in HNL.
  assert (E2 : split_on [NL; NL] text = [text]) by now apply split_on_no_NL.
  assert (E1 : split_on [NL] text = [text]) by now apply split_on_no_NL.
  assert (Es : strip text = text) by apply clean_text_stripped.
  assert (S1 : stage1 = if min_words <=? word_count text then [text] else []).
  { unfold stage1, double_newline_sections. rewrite E2. simpl.
    destruct (min_words <=? word_count text); simpl; now rewrite ?Es. }
  assert (S2 : stage2 = []).
  { unfold stage2, single_newline_sections. rewrite E1, S1. simpl. rewrite Es.
    destruct (min_words <=? word_count text); simpl; [|reflexivity].
    now rewrite str_eqb_refl. }
  assert (S12 : stage1 ++ stage2 =
                if min_words <=? word_count text then [text] else []).
  { now rewrite S2, app_nil_r. }
  assert (L : len (stage1 ++ stage2) < 3).
  { rewrite S12. destruct (min_words <=? word_count text); cbv; reflexivity. }
  repeat split; try assumption.
  - unfold candidate_sections. cbv zeta.
    change ([] ++ double_newline_sections text min_words) with stage1.
    assert (L1 : (len stage1 <? 3) = true).
    { apply Z.ltb_lt. rewrite S2, app_nil_r in L. exact L. }
    rewrite L1.
    change (single_newline_sections text min_words stage1) with stage2.
    apply Z.ltb_lt in L. now rewrite L.
  - rewrite E1. reflexivity.
Qed.

(** ** split_sections *)

Lemma filter_filter_and {A : Type} (f g : A -> bool) (l : list A) :
  filter f (filter g l) = filter (fun x => (g x && f x)%bool) l.
Proof.
  induction l as [|x l IH]; simpl; [reflexivity|].
  destruct (g x); simpl; [destruct (f x)|]; now rewrite IH.
Qed.

Lemma unique_loop_appended (min_words : Z) (l seen unique : list str) :
  snd (fold_left (unique_step min_words) l (seen, unique)) =
  unique ++ appended min_words seen l.
Proof.
  revert seen unique. induction l as [|x l IH]; intros seen unique; simpl.
  - now rewrite app_nil_r.
  - destruct (negb (mem x seen) && (min_words <=? word_count x))%bool.
    + rewrite IH, <- app_assoc. reflexivity.
    + apply IH.
Qed.

Lemma mem_cons (s x : str) (seen : list str) :
  mem s (x :: seen) = (str_eqb s x || mem s seen)%bool.
Proof. reflexivity. Qed.

Lemma appended_dedup (min_words : Z) (l seen : list str) :
  appended min_words seen l =
  filter (fun s => negb (mem s seen))
    (filter (fun s => min_words <=? word_count s) (dedup_first l)).
Proof.
  revert seen. induction l as [|x l IH]; intros seen; [reflexivity|].
  cbn [appended dedup_first filter]. rewrite !IH.
  destruct (min_words <=? word_count x) eqn:HP;
    destruct (mem x seen) eqn:Hm; cbn [negb andb filter]; rewrite ?Hm; cbn [negb];
    rewrite !filter_filter_and;
    match goal with |- _ :: _ = _ :: _ => f_equal | _ => idtac end;
    apply filter_ext; intros s;
    rewrite ?mem_cons;
    (destruct (str_eqb s x) eqn:E;
     [apply str_eqb_eq in E; subst s; rewrite ?Hm, ?HP; reflexivity |]);
    destruct (min_words <=? word_count s), (mem s seen); reflexivity.
Qed.

Lemma unique_sections_dedup (min_words : Z) (l : list str) :
  unique_sections min_words l =
  filter (fun s => min_words <=? word_count s) (dedup_first l).
Proof.
  unfold unique_sections. rewrite unique_loop_appended, appended_dedup.
  cbn [app]. rewrite filter_filter_and. apply filter_ext. intros s.
  cbn. apply andb_true_r.
Qed.

Lemma dedup_first_NoDup (l : list str) : NoDup (dedup_first l).
Proof.
  induction l as [|x l IH]; simpl; constructor.
  - intros H. apply filter_In in H. destruct H as [_ H].
    now rewrite str_eqb_refl in H.
  - now apply NoDup_filter.
Qed.

Lemma firstn_NoDup {A : Type} (n : nat) (l : list A) :
  NoDup l -> NoDup (firstn n l).
Proof.
  intros H. rewrite <- (firstn_skipn n l) in H.
  now apply NoDup_app_remove_r in H.
Qed.

Lemma firstn_Forall {A : Type} (P : A -> Prop) (n : nat) (l : list A) :
  Forall P l -> Forall P (firstn n l).
Proof.
  intros H. rewrite <- (firstn_skipn n l) in H. now apply Forall_app in H.
Qed.

(** C4: the list returned by [split_sections] is the deduplicated list of
    candidates, first occurrences kept in their order, filtered by the
    threshold and truncated to 15; so every element has at least [min_words]
    words, no string is repeated and there are at most 15 elements. *)
Theorem split_sections_invariants (text : str) (min_words : Z) :
  let sections := split_sections text min_words in
  sections = split_sections_spec text min_words /\
  Forall (fun s => min_words <= word_count s) sections /\
  NoDup sections /\
  len sections <= 15.
Proof.
  intros sections.
  assert (E : sections = split_sections_spec text min_words).
  { unfold sections, split_sections, split_sections_spec.
    rewrite slice_to_nonneg by lia. now rewrite unique_sections_dedup. }
  split; [exact E|]. rewrite E. unfold split_sections_spec. repeat split.
  - apply firstn_Forall, Forall_forall. intros s Hs.
    apply filter_In in Hs. destruct Hs as [_ Hs]. now apply Z.leb_le.
  - apply firstn_NoDup, NoDup_filter, dedup_first_NoDup.
  - unfold len. rewrite length_firstn. lia.
Qed.

(** *** The sentence-accumulation stage *)

Lemma group_step_below (min_words : Z) (sections : list str)
  (st : group_state) (sentence : str) :
  current_word_count st + word_count (strip sentence) < min_words ->
  group_step min_words sections st sentence =
  if is_empty (strip sentence) then st
  else mk_group_state (sentence_groups st)
         (current_group st ++ [strip sentence])
         (current_word_count st + word_count (strip sentence)).
Proof.
  intros H. unfold group_step. destruct (is_empty (strip sentence)); [reflexivity|].
  destruct (Z.leb_spec min_words
              (current_word_count st + word_count (strip sentence)));
    [lia | reflexivity].
Qed.

Lemma word_count_nil : word_count [] = 0.
Proof. reflexivity. Qed.

(** While the running count stays below the threshold the loop emits
    nothing: the sentences only pile up in the current group. *)
Lemma total_words_nonneg (l : list str) : 0 <= total_words l.
Proof.
  induction l as [|y l IH]; simpl; [lia|].
  pose proof (word_count_nonneg y). lia.
Qed.

Lemma group_loop_below (min_words : Z) (sections : list str)
  (tail : list str) (st : group_state) :
  current_word_count st + total_words (map strip tail) < min_words ->
  group_loop min_words sections tail st =
  mk_group_state (sentence_groups st)
    (current_group st ++ filter (fun s => negb (is_empty s)) (map strip tail))
    (current_word_count st + total_words (map strip tail)).
Proof.
  revert st. induction tail as [|s tail IH]; intros st H.
  - simpl. rewrite app_nil_r, Z.add_0_r. now destruct st.
  - change (total_words (map strip (s :: tail)))
      with (word_count (strip s) + total_words (map strip tail)) in *.
    change (map strip (s :: tail)) with (strip s :: map strip tail).
    pose proof (word_count_nonneg (strip s)).
    pose proof (total_words_nonneg (map strip tail)).
    change (group_loop min_words sections (s :: tail) st)
      with (group_loop min_words sections tail (group_step min_words sections st s)).
    rewrite group_step_below by lia.
    destruct (strip s) as [|c r] eqn:Es; cbn [is_empty filter negb].
    + rewrite IH by (rewrite word_count_nil in H; lia).
      rewrite word_count_nil. reflexivity.
    + rewrite IH by (cbn [current_word_count]; lia).
      cbn [sentence_groups current_group current_word_count].
      rewrite <- app_assoc. cbn [app]. f_equal. lia.
Qed.

Lemma group_loop_app (min_words : Z) (sections : list str)
  (pre tail : list str) (st : group_state) :
  group_loop min_words sections (pre ++ tail) st =
  group_loop min_words sections tail (group_loop min_words sections pre st).
Proof. unfold group_loop. apply fold_left_app. Qed.

(** C3: in the sentence-accumulation stage, a trailing group of sentences
    whose accumulated word count stays below [min_words] is discarded: the
    stage returns exactly the groups emitted before it, and the sentences of
    the trailing group are left in the current group, which is not
    returned. *)
Theorem trailing_group_discarded (text : str) (min_words : Z)
  (sections pre tail : list str) :
  re_split sentence_end text = pre ++ tail ->
  let st := group_loop min_words sections pre (mk_group_state [] [] 0) in
  current_group st = [] ->
  current_word_count st + total_words (map strip tail) < min_words ->
  sentence_based_sections text min_words sections = sentence_groups st /\
  current_group
    (group_loop min_words sections (re_split sentence_end text)
       (mk_group_state [] [] 0)) =
  filter (fun s => negb (is_empty s)) (map strip tail).
Proof.
  intros E st Hg Hc. unfold sentence_based_sections.
  rewrite E, group_loop_app. fold st.
  rewrite group_loop_below by exact Hc. simpl. rewrite Hg. auto.
Qed.

Lemma trailing_group_discarded_witness :
  sentence_based_sections example_page 15 [example_page] =
    [py "One two three four five six seven eight nine ten eleven twelve thirteen fourteen fifteen."] /\
  current_group
    (group_loop 15 [example_page] (re_split sentence_end example_page)
       (mk_group_state [] [] 0)) = [py "tail"].
Proof.
  exact (trailing_group_discarded example_page 15 [example_page]
           [py "One two three four five six seven eight nine ten eleven twelve thirteen fourteen fifteen"]
           [py " tail"] eq_refl eq_refl eq_refl).
Defined.

(** ** Stable sorting *)

Section StableSortFacts.
Context {A : Type} (gt : A -> A -> bool).

Lemma insert_desc_perm (x : A) (l : list A) :
  Permutation (insert_desc gt x l) (x :: l).
Proof.
  induction l as [|y l IH]; simpl; [reflexivity|].
  destruct (gt y x); [|reflexivity].
  rewrite IH. apply perm_swap.
Qed.

Lemma sort_desc_perm (l : list A) : Permutation (sort_desc gt l) l.
Proof.
  induction l as [|x l IH]; simpl; [reflexivity|].
  rewrite insert_desc_perm. now constructor.
Qed.

Lemma sort_desc_In (x : A) (l : list A) : In x (sort_desc gt l) <-> In x l.
Proof.
  split; apply Permutation_in;
    [apply sort_desc_perm | symmetry; apply sort_desc_perm].
Qed.

Lemma sort_desc_length (l : list A) : length (sort_desc gt l) = length l.
Proof. apply Permutation_length, sort_desc_perm. Qed.
End StableSortFacts.

(** ** extract_title_from_text *)

Lemma slice_to_length_le {A : Type} (k : Z) (l : list A) :
  0 <= k -> len (slice_to k l) = Z.min k (len l).
Proof.
  intros H. rewrite slice_to_nonneg by assumption.
  unfold len. rewrite length_firstn. lia.
Qed.







(** ** summarize_text *)

Lemma total_words_cons (s : str) (l : list str) :
  total_words (s :: l) = word_count s + total_words l.
Proof. reflexivity. Qed.

Lemma select_sentences_total (max_length : Z) (l : list (str * float)) (cur : Z) :
  select_sentences max_length cur l <> [] ->
  cur + total_words (select_sentences max_length cur l) <= max_length.
Proof.
  revert cur. induction l as [|[s sc] l IH]; intros cur; cbn [select_sentences];
    [congruence|].
  destruct (Z.leb_spec (cur + word_count s) max_length) as [Hle|]; [|congruence].
  intros _. rewrite total_words_cons.
  destruct (select_sentences max_length (cur + word_count s) l) eqn:E.
  - change (total_words []) with 0. lia.
  - assert (H : select_sentences max_length (cur + word_count s) l <> [])
      by (rewrite E; discriminate).
    specialize (IH _ H). rewrite E in IH. lia.
Qed.

Lemma select_sentences_In (max_length : Z) (l : list (str * float)) (cur : Z) (s : str) :
  In s (select_sentences max_length cur l) -> In s (map fst l).
Proof.
  revert cur. induction l as [|[x sc] l IH]; intros cur; simpl; [auto|].
  destruct (cur + word_count x <=? max_length); simpl; [|contradiction].
  intros [H | H]; [now left | right; eapply IH; eassumption].
Qed.

Lemma enumerate_In {A : Type} (start : Z) (l : list A) (i : Z) (x : A) :
  In (i, x) (enumerate start l) -> In x l.
Proof. unfold enumerate. apply in_combine_r. Qed.

Lemma scored_sentences_In (text : str) (sentences : list str) (s : str) :
  In s (map fst (scored_sentences text sentences)) -> In s sentences.
Proof.
  unfold scored_sentences. cbv zeta. intros H.
  apply in_map_iff in H. destruct H as [[x sc] [E H]]. simpl in E. subst x.
  apply sort_desc_In in H. apply in_map_iff in H.
  destruct H as [[i y] [E H]]. injection E as -> _.
  eapply enumerate_In; eassumption.
Qed.

Lemma is_empty_false {A : Type} (l : list A) : is_empty l = false <-> l <> [].
Proof. destruct l; simpl; split; congruence. Qed.

Lemma summary_sentences_stripped (text : str) :
  Forall (fun x => x <> [] /\ ends_with_char isspace x = false)
    (summary_sentences_of text).
Proof.
  unfold summary_sentences_of. apply Forall_forall. intros x Hx.
  apply in_map_iff in Hx. destruct Hx as [s [<- Hs]].
  apply filter_In in Hs. destruct Hs as [_ Hs].
  apply andb_true_iff in Hs. destruct Hs as [Hs _].
  apply negb_true_iff, is_empty_false in Hs. split; [assumption | apply strip_last].
Qed.

(** C2, as stated, fails beyond 30 words: a text with at most two
    qualifying sentences is returned unchanged whatever its length, and the
    fallback joins the first two sentences without looking at the budget. *)
Lemma summary_longer_than_max_length :
  30 < word_count long_text /\
  summarize_text long_text 200 = long_text /\
  ~ word_count (summarize_text long_text 200) <= 200 /\
  30 < word_count three_sentences /\
  ~ word_count (summarize_text three_sentences 5) <= 5.
Proof. repeat split; vm_compute; congruence. Qed.

(** C2, amended: [summarize_text] returns its input unchanged when the
    input has at most 30 words, and also when at most two sentences of more
    than three words remain.  Otherwise, when at least one sentence is
    selected, the summary has at most [max_length] words; when none is
    selected the first two sentences are returned, joined with ". " and
    closed by a full stop. *)
Theorem summarize_text_bounded (text : str) (max_length : Z) :
  let sentences := summary_sentences_of text in
  let selected := select_sentences max_length 0 (scored_sentences text sentences) in
  (word_count text <= 30 -> summarize_text text max_length = text) /\
  (len sentences <= 2 -> summarize_text text max_length = text) /\
  (30 < word_count text -> 2 < len sentences -> selected <> [] ->
   summarize_text text max_length = join (py ". ") selected ++ py "." /\
   word_count (summarize_text text max_length) = total_words selected /\
   word_count (summarize_text text max_length) <= max_length) /\
  (30 < word_count text -> 2 < len sentences -> selected = [] ->
   summarize_text text max_length =
   join (py ". ") (slice_to 2 sentences) ++ py ".").
Proof.
  intros sentences selected. unfold summarize_text. cbv zeta.
  fold sentences. fold selected. repeat split.
  - intros H. apply Z.leb_le in H. now rewrite H.
  - intros H. apply Z.leb_le in H. rewrite H.
    now destruct (word_count text <=? 30).
  - apply Z.leb_gt in H. apply Z.leb_gt in H0. rewrite H, H0.
    apply is_empty_false in H1. now rewrite H1.
  - apply Z.leb_gt in H. apply Z.leb_gt in H0. rewrite H, H0.
    pose proof H1 as H2. apply is_empty_false in H2. rewrite H2.
    apply word_count_join_sentences; [assumption|].
    apply Forall_forall. intros s Hs.
    pose proof (summary_sentences_stripped text) as F.
    rewrite Forall_forall in F. apply F.
    apply (scored_sentences_In text). eapply select_sentences_In. exact Hs.
  - apply Z.leb_gt in H. apply Z.leb_gt in H0. rewrite H, H0.
    pose proof H1 as H2. apply is_empty_false in H2. rewrite H2.
    rewrite word_count_join_sentences; [| assumption |].
    + pose proof (select_sentences_total max_length _ 0 H1) as T.
      fold selected in T. lia.
    + apply Forall_forall. intros s Hs.
      pose proof (summary_sentences_stripped text) as F.
      rewrite Forall_forall in F. apply F.
      apply (scored_sentences_In text). eapply select_sentences_In. exact Hs.
  - intros H H0 H1. apply Z.leb_gt in H. apply Z.leb_gt in H0. rewrite H, H0.
    fold selected. now rewrite H1.
Qed.

Lemma summarize_text_bounded_witness :
  30 < word_count three_sentences /\
  word_count (summarize_text three_sentences 200) <= 200.
Proof.
  pose proof (summarize_text_bounded three_sentences 200) as [_ [_ [H _]]].
  split; [reflexivity|].
  apply H; [reflexivity | reflexivity | vm_compute; discriminate].
Defined.

(** ** The order of floating-point numbers *)

Ltac float_cases :=
  unfold fle, flt, SFleb, SFltb, SFeqb, SFcompare;
  repeat match goal with
         | x : float |- _ => destruct x as [[|]|[|]| |[|] ? ?]
         end;
  cbn [is_nan]; try congruence; try reflexivity;
  repeat match goal with
         | |- context [Z.compare ?a ?b] => destruct (Z.compare_spec a b)
         | |- context [Pos.compare_cont Eq ?a ?b] =>
             change (Pos.compare_cont Eq a b) with (Pos.compare a b);
             destruct (Pos.compare_spec a b)
         end;
  cbn [CompOpp]; try congruence; try reflexivity; try lia.

Lemma flt_fle (a b : float) : flt a b = true -> fle a b = true.
Proof. float_cases. Qed.

Lemma flt_asym (a b : float) : flt a b = true -> fle b a = false.
Proof. float_cases. Qed.

Lemma fle_total (a b : float) :
  is_nan a = false -> is_nan b = false -> flt a b = false -> fle b a = true.
Proof. float_cases. Qed.

Lemma fle_trans (a b c : float) :
  fle a b = true -> fle b c = true -> fle a c = true.
Proof. float_cases. Qed.

Lemma feq_fle (a b : float) :
  SFeqb a b = true -> fle a b = true /\ fle b a = true.
Proof. float_cases. Qed.

(** ** calculate_relevance_score *)

Lemma In_range (n : nat) (z : Z) : 0 <= z < Z.of_nat n -> In z (range n).
Proof.
  intros H. unfold range. apply in_map_iff. exists (Z.to_nat z). split; [lia|].
  apply in_seq. lia.
Qed.

Lemma count_in_bounds (keywords : list str) (text : str) :
  0 <= count_in keywords text <= len keywords.
Proof.
  unfold count_in, len.
  pose proof (filter_length_le (fun keyword => contains text keyword) keywords).
  lia.
Qed.

Lemma slice_to_len_le {A : Type} (k : Z) (l : list A) :
  0 <= k -> len (slice_to k l) <= k.
Proof. intros H. rewrite slice_to_length_le by assumption. lia. Qed.

Lemma extract_keywords_len (text : str) : len (extract_keywords text) <= 20.
Proof.
  unfold extract_keywords, most_common. cbv zeta. unfold len.
  rewrite length_map. apply (slice_to_len_le 20). lia.
Qed.

Lemma forallb_In {A : Type} (f : A -> bool) (l : list A) (x : A) :
  forallb f l = true -> In x l -> f x = true.
Proof. intros H. rewrite forallb_forall in H. apply H. Qed.

(** The additions of the score are exact: checked for every total up to
    273 halves and every count up to 20. *)
Lemma exact_add (w : float) (u n k : Z) :
  forallb (fun n => forallb (exact_add_ok w u n) (range 21)) (range 274) = true ->
  0 <= n <= 273 -> 0 <= k <= 20 ->
  fadd (of_halves n) (fmul (of_int k) w) = of_halves (n + u * k).
Proof.
  intros C Hn Hk.
  pose proof (forallb_In _ _ k
                (forallb_In _ _ n C (In_range 274 n ltac:(lia)))
                (In_range 21 k ltac:(lia))) as E.
  unfold exact_add_ok, float_eqb in E.
  destruct (float_eq_dec (fadd (of_halves n) (fmul (of_int k) w))
              (of_halves (n + u * k))); [assumption | discriminate].
Qed.

Lemma exact_add_2_0 :
  forallb (fun n => forallb (exact_add_ok F2_0 4 n) (range 21)) (range 274) = true.
Proof. vm_compute. reflexivity. Qed.

Lemma exact_add_1_5 :
  forallb (fun n => forallb (exact_add_ok F1_5 3 n) (range 21)) (range 274) = true.
Proof. vm_compute. reflexivity. Qed.

Lemma exact_add_1_0 :
  forallb (fun n => forallb (exact_add_ok F1_0 2 n) (range 21)) (range 274) = true.
Proof. vm_compute. reflexivity. Qed.

Lemma domain_bonus_bounds (combined_text section_lower : str)
  (domains : list (str * list str)) :
  0 <= domain_bonus combined_text section_lower domains <= domain_size domains.
Proof.
  unfold domain_bonus, domain_size.
  induction domains as [|e ds IH]; simpl; [lia|].
  pose proof (count_in_bounds (snd e) section_lower).
  destruct (0 <? count_in (snd e) combined_text); lia.
Qed.

Lemma domain_size_nonneg (domains : list (str * list str)) :
  0 <= domain_size domains.
Proof.
  unfold domain_size. induction domains as [|e ds IH]; simpl; [lia|].
  pose proof (len_nonneg (snd e)). lia.
Qed.

(** The loop over the domains adds the domain bonus exactly. *)
Lemma domain_fold_exact (combined_text section_lower : str)
  (domains : list (str * list str)) (n : Z) :
  0 <= n -> n + 2 * domain_size domains <= 273 ->
  Forall (fun entry => len (snd entry) <= 20) domains ->
  fold_left (domain_step combined_text section_lower) domains (of_halves n) =
  of_halves (n + 2 * domain_bonus combined_text section_lower domains).
Proof.
  revert n. induction domains as [|e ds IH]; intros n Hn Hb F.
  - simpl. f_equal. unfold domain_bonus. simpl. lia.
  - inversion F as [|e' ds' He Hds]; subst.
    pose proof (count_in_bounds (snd e) section_lower) as Hc.
    pose proof (domain_size_nonneg ds) as Hs.
    pose proof (domain_bonus_bounds combined_text section_lower ds) as Hd.
    change (domain_size (e :: ds)) with (len (snd e) + domain_size ds) in Hb.
    change (domain_bonus combined_text section_lower (e :: ds))
      with ((if 0 <? count_in (snd e) combined_text
             then count_in (snd e) section_lower else 0)
            + domain_bonus combined_text section_lower ds).
    cbn [fold_left]. unfold domain_step at 2. cbv zeta.
    destruct (0 <? count_in (snd e) combined_text).
    + rewrite (exact_add F1_0 2) by (try apply exact_add_1_0; lia).
      rewrite IH by (try assumption; lia). f_equal. lia.
    + rewrite IH by (try assumption; lia). f_equal; lia.
Qed.

Lemma additive_halves_bounds (section task_text persona : str) :
  0 <= additive_halves section task_text persona <= 273.
Proof.
  unfold additive_halves. cbv zeta.
  pose proof (count_in_bounds (extract_keywords (lower task_text)) (lower section)).
  pose proof (count_in_bounds (extract_keywords (lower persona)) (lower section)).
  pose proof (extract_keywords_len (lower task_text)).
  pose proof (extract_keywords_len (lower persona)).
  pose proof (count_in_bounds action_words (lower section)).
  pose proof (domain_bonus_bounds (lower task_text ++ py " " ++ lower persona)
                (lower section) domain_keywords).
  change (len action_words) with 9 in *.
  change (domain_size domain_keywords) with 53 in *.
  lia.
Qed.

Lemma length_class_bounds (section : str) : 0 <= length_class section <= 2.
Proof.
  unfold length_class.
  destruct (50 <? word_count section), (word_count section <? 20); lia.
Qed.

Lemma boosted_ok_all :
  forallb (fun n =>
             forallb (fun lc => forallb (boosted_ok n lc) [false; true]) [0; 1; 2])
    (range 274) = true.
Proof. vm_compute. reflexivity. Qed.

Lemma boosted_facts (n lc : Z) (b : bool) :
  0 <= n <= 273 -> 0 <= lc <= 2 ->
  fle F0_0 (boosted n lc b) = true /\
  fle (boosted n lc b) (boosted (n + 1) lc b) = true /\
  (lc < 2 -> fle (boosted n lc b) (boosted n (lc + 1) b) = true) /\
  fle (boosted n lc b) (boosted n lc true) = true.
Proof.
  intros Hn Hlc.
  assert (Hin : In lc [0; 1; 2]) by (simpl; lia).
  assert (Hb : In b [false; true]) by (destruct b; simpl; auto).
  pose proof (forallb_In _ _ b
                (forallb_In _ _ lc
                   (forallb_In _ _ n boosted_ok_all
                      (In_range 274 n ltac:(lia))) Hin) Hb) as C.
  unfold boosted_ok in C.
  apply andb_true_iff in C. destruct C as [C C4].
  apply andb_true_iff in C. destruct C as [C C3].
  apply andb_true_iff in C. destruct C as [C1 C2].
  split; [exact C1|]. split; [exact C2|]. split; [|exact C4].
  intros Hlt. apply orb_true_iff in C3. destruct C3 as [C3 | C3]; [|exact C3].
  apply Z.leb_le in C3. lia.
Qed.

(** The code computes the score that the specification describes. *)
Lemma calculate_relevance_score_spec (section task_text persona : str) :
  calculate_relevance_score section task_text persona =
  relevance_score_spec section task_text persona.
Proof.
  unfold calculate_relevance_score, relevance_score_spec. cbv zeta.
  pose proof (count_in_bounds (extract_keywords (lower task_text)) (lower section)) as H1.
  pose proof (count_in_bounds (extract_keywords (lower persona)) (lower section)) as H2.
  pose proof (extract_keywords_len (lower task_text)) as H3.
  pose proof (extract_keywords_len (lower persona)) as H4.
  pose proof (count_in_bounds action_words (lower section)) as H5.
  pose proof (domain_bonus_bounds (lower task_text ++ py " " ++ lower persona)
                (lower section) domain_keywords) as H6.
  change (len action_words) with 9 in H5.
  change (domain_size domain_keywords) with 53 in H6.
  change F0_0 with (of_halves 0).
  rewrite (exact_add F2_0 4) by (try apply exact_add_2_0; lia).
  rewrite (exact_add F1_5 3) by (try apply exact_add_1_5; lia).
  rewrite domain_fold_exact;
    [| lia | change (domain_size domain_keywords) with 53; lia
     | repeat constructor; vm_compute; congruence].
  rewrite (exact_add F1_5 3) by (try apply exact_add_1_5; lia).
  unfold boosted, additive_halves, length_class, instructional. cbv zeta.
  match goal with
  | |- context [of_halves ?a] =>
      match goal with
      | |- context [of_halves ?b] =>
          lazymatch a with b => fail | _ => replace a with b by lia end
      end
  end.
  destruct (50 <? word_count section); [reflexivity|].
  destruct (word_count section <? 20); reflexivity.
Qed.


(** *** Monotonicity *)

Lemma fle_refl (a : float) : is_nan a = false -> fle a a = true.
Proof. float_cases. Qed.

Lemma fle_not_nan (a b : float) : fle a b = true -> is_nan b = false.
Proof. float_cases. Qed.

Lemma boosted_refl (n lc : Z) (b : bool) :
  0 <= n <= 273 -> 0 <= lc <= 2 -> fle (boosted n lc b) (boosted n lc b) = true.
Proof.
  intros Hn Hlc. apply fle_refl. apply (fle_not_nan F0_0).
  now apply boosted_facts.
Qed.

Lemma boosted_mono_total (k : nat) (n lc : Z) (b : bool) :
  0 <= n -> n + Z.of_nat k <= 273 -> 0 <= lc <= 2 ->
  fle (boosted n lc b) (boosted (n + Z.of_nat k) lc b) = true.
Proof.
  intros Hn. induction k as [|k IH]; intros Hk Hlc.
  - rewrite Z.add_0_r. apply boosted_refl; lia.
  - apply fle_trans with (boosted (n + Z.of_nat k) lc b); [apply IH; lia|].
    replace (n + Z.of_nat (S k)) with (n + Z.of_nat k + 1) by lia.
    apply boosted_facts; lia.
Qed.

Lemma boosted_mono_class (n lc lc' : Z) (b : bool) :
  0 <= n <= 273 -> 0 <= lc <= lc' -> lc' <= 2 ->
  fle (boosted n lc b) (boosted n lc' b) = true.
Proof.
  intros Hn Hlc Hlc'.
  assert (S1 : forall c, 0 <= c < 2 ->
                 fle (boosted n c b) (boosted n (c + 1) b) = true).
  { intros c Hc. apply boosted_facts; lia. }
  assert (C : lc' = lc \/ lc' = lc + 1 \/ (lc = 0 /\ lc' = 2)) by lia.
  destruct C as [-> | [-> | [-> ->]]].
  - apply boosted_refl; lia.
  - apply S1. lia.
  - apply fle_trans with (boosted n 1 b); [apply (S1 0) | apply (S1 1)]; lia.
Qed.

Lemma boosted_mono (n n' lc lc' : Z) (b b' : bool) :
  0 <= n <= n' -> n' <= 273 -> 0 <= lc <= lc' -> lc' <= 2 ->
  (b = true -> b' = true) ->
  fle (boosted n lc b) (boosted n' lc' b') = true.
Proof.
  intros Hn Hn' Hlc Hlc' Hb.
  apply fle_trans with (boosted n' lc b).
  { replace n' with (n + Z.of_nat (Z.to_nat (n' - n))) by lia.
    apply boosted_mono_total; lia. }
  apply fle_trans with (boosted n' lc' b).
  { apply boosted_mono_class; lia. }
  destruct b, b'.
  - apply boosted_refl; lia.
  - discriminate (Hb eq_refl).
  - apply boosted_facts; lia.
  - apply boosted_refl; lia.
Qed.













(** ** The global ranking *)

Section StableSortOrder.
Context {A : Type} (gt : A -> A -> bool).

(** Inserting [x] does not disturb the elements of a class [P] that no
    element larger than [x] shares with [x]. *)
Lemma insert_desc_filter (P : A -> bool) (x : A) (l : list A) :
  (forall y, gt y x = true -> P x = true -> P y = false) ->
  filter P (insert_desc gt x l) = filter P (x :: l).
Proof.
  intros H. induction l as [|y l IH]; [reflexivity|].
  cbn [insert_desc]. destruct (gt y x) eqn:G; [|reflexivity].
  cbn [filter] in *. rewrite IH. destruct (P x) eqn:Px; [|reflexivity].
  now rewrite (H y G eq_refl).
Qed.

Lemma sort_desc_filter (P : A -> bool) (l : list A) :
  (forall x y, gt y x = true -> P x = true -> P y = false) ->
  filter P (sort_desc gt l) = filter P l.
Proof.
  intros H. induction l as [|x l IH]; [reflexivity|].
  cbn [sort_desc fold_right]. fold (sort_desc gt l).
  rewrite insert_desc_filter by (intros y; apply H).
  cbn [filter]. now rewrite IH.
Qed.

(** Sortedness, for a relation [R] that the comparison decides on the
    elements satisfying [ok]. *)
Variable R : A -> A -> Prop.
Variable ok : A -> Prop.
Hypothesis gt_R : forall x y, gt y x = true -> R y x.
Hypothesis not_gt_R : forall x y, ok x -> ok y -> gt y x = false -> R x y.
Hypothesis R_trans : forall x y z, R x y -> R y z -> R x z.

Lemma insert_desc_sorted (x : A) (l : list A) :
  ok x -> Forall ok l ->
  StronglySorted R l -> StronglySorted R (insert_desc gt x l).
Proof.
  intros Hx Hl S. induction S as [|y l S IH F]; cbn [insert_desc].
  - repeat constructor.
  - inversion Hl as [|y' l' Hy Hl']; subst.
    destruct (gt y x) eqn:G.
    + constructor; [now apply IH|].
      apply Forall_forall. intros z Hz.
      apply (Permutation_in _ (insert_desc_perm gt x l)) in Hz.
      destruct Hz as [<- | Hz]; [now apply gt_R|].
      rewrite Forall_forall in F. now apply F.
    + constructor; [now constructor|].
      assert (Rxy : R x y) by now apply not_gt_R.
      constructor; [assumption|].
      eapply Forall_impl; [|exact F]. intros z Hz. now apply R_trans with y.
Qed.

Lemma sort_desc_sorted (l : list A) :
  Forall ok l -> StronglySorted R (sort_desc gt l).
Proof.
  induction 1 as [|x l Hx Hl IH]; [constructor|].
  cbn [sort_desc fold_right]. fold (sort_desc gt l).
  apply insert_desc_sorted; try assumption.
  apply Forall_forall. intros z Hz. apply sort_desc_In in Hz.
  rewrite Forall_forall in Hl. now apply Hl.
Qed.
End StableSortOrder.

Lemma calculate_relevance_score_nonneg (section task_text persona : str) :
  fle F0_0 (calculate_relevance_score section task_text persona) = true.
Proof.
  rewrite calculate_relevance_score_spec. unfold relevance_score_spec.
  apply boosted_facts; [apply additive_halves_bounds | apply length_class_bounds].
Qed.

Lemma format_loop (l : list (Z * scored_section))
  (extracted : list extracted_section) (analysis : list subsection) :
  fold_left format_step l (extracted, analysis) =
  (extracted ++ map extracted_entry l,
   analysis ++ map (fun entry => subsection_entry (snd entry)) l).
Proof.
  revert extracted analysis. induction l as [|[i r] l IH]; intros extracted analysis.
  - simpl. now rewrite !app_nil_r.
  - cbn [fold_left format_step]. rewrite IH. cbn [map]. now rewrite <- !app_assoc.
Qed.

Lemma enumerate_length {A : Type} (start : Z) (l : list A) :
  length (enumerate start l) = length l.
Proof.
  unfold enumerate. rewrite length_combine, length_map, length_seq. lia.
Qed.

Lemma combine_map_fst {A B : Type} (l1 : list A) (l2 : list B) :
  length l1 = length l2 -> map fst (combine l1 l2) = l1.
Proof.
  revert l2. induction l1 as [|a l1 IH]; intros [|b l2] H; simpl in *;
    try reflexivity; try discriminate.
  f_equal. apply IH. lia.
Qed.

Lemma combine_map_snd {A B : Type} (l1 : list A) (l2 : list B) :
  length l1 = length l2 -> map snd (combine l1 l2) = l2.
Proof.
  revert l2. induction l1 as [|a l1 IH]; intros [|b l2] H; simpl in *;
    try reflexivity; try discriminate.
  f_equal. apply IH. lia.
Qed.

Lemma enumerate_fst {A : Type} (l : list A) :
  map fst (enumerate 1 l) = map Z.of_nat (seq 1 (length l)).
Proof.
  unfold enumerate. rewrite combine_map_fst by (now rewrite length_map, length_seq).
  rewrite <- seq_shift, map_map. apply map_ext. intros i. lia.
Qed.

Lemma enumerate_snd {A : Type} (start : Z) (l : list A) :
  map snd (enumerate start l) = l.
Proof.
  unfold enumerate. apply combine_map_snd. now rewrite length_map, length_seq.
Qed.

Lemma format_output_entries (top_sections : list scored_section) :
  format_output top_sections =
  (map extracted_entry (enumerate 1 top_sections),
   map subsection_entry top_sections).
Proof.
  unfold format_output. rewrite format_loop. cbn [app]. f_equal.
  rewrite <- (map_map snd subsection_entry). now rewrite enumerate_snd.
Qed.

(** C5: the flat list of scored sections is sorted by descending score with
    a stable sort (the sections of equal score keep their order), its first
    [top_k] elements are retained, and [extracted_sections] and
    [subsection_analysis] have the same length [min(top_k, total)], the
    ranks being 1..N in the sorted order. *)
Theorem ranking_is_stable_and_contiguous
  (all_scored_sections : list scored_section) (top_k : Z)
  (job_task persona_role : str) :
  0 <= top_k ->
  Forall (fun r => ss_score r =
                   calculate_relevance_score (ss_text r) job_task persona_role)
    all_scored_sections ->
  let sorted := sort_desc score_gt all_scored_sections in
  let top_sections := rank_sections all_scored_sections top_k in
  let extracted_sections := fst (format_output top_sections) in
  let subsection_analysis := snd (format_output top_sections) in
  Permutation sorted all_scored_sections /\
  StronglySorted (fun a b => fle (ss_score b) (ss_score a) = true) sorted /\
  (forall v, filter (fun r => SFeqb (ss_score r) v) sorted =
             filter (fun r => SFeqb (ss_score r) v) all_scored_sections) /\
  top_sections = firstn (Z.to_nat top_k) sorted /\
  len extracted_sections = Z.min top_k (len all_scored_sections) /\
  len subsection_analysis = Z.min top_k (len all_scored_sections) /\
  map es_importance_rank extracted_sections =
    map Z.of_nat (seq 1 (length top_sections)) /\
  map (fun e => (es_document e, es_page_number e)) extracted_sections =
    map (fun r => (ss_document r, ss_page_number r)) top_sections /\
  map (fun a => (sa_document a, sa_page_number a)) subsection_analysis =
    map (fun r => (ss_document r, ss_page_number r)) top_sections.
Proof.
  intros Hk Hs sorted top_sections extracted_sections subsection_analysis.
  assert (Htop : top_sections = firstn (Z.to_nat top_k) sorted).
  { unfold top_sections, rank_sections. cbv zeta. now rewrite slice_to_nonneg. }
  assert (Hlen : len top_sections = Z.min top_k (len all_scored_sections)).
  { rewrite Htop. unfold len, sorted.
    rewrite length_firstn, sort_desc_length. lia. }
  unfold extracted_sections, subsection_analysis.
  rewrite format_output_entries. cbn [fst snd].
  split; [apply sort_desc_perm|].
  split.
  { apply sort_desc_sorted with (ok := fun r => is_nan (ss_score r) = false).
    - intros x y G. now apply flt_fle.
    - intros x y Hx Hy G. now apply fle_total.
    - intros x y z Hxy Hyz. now apply fle_trans with (ss_score y).
    - eapply Forall_impl; [|exact Hs]. intros r ->.
      apply (fle_not_nan F0_0), calculate_relevance_score_nonneg. }
  split.
  { intros v. apply sort_desc_filter. intros x y G Px.
    destruct (SFeqb (ss_score y) v) eqn:Py; [|reflexivity].
    apply feq_fle in Px. apply feq_fle in Py.
    destruct Px as [_ Px], Py as [Py _].
    pose proof (fle_trans _ _ _ Py Px) as T.
    unfold score_gt in G. apply flt_asym in G. congruence. }
  split; [exact Htop|].
  split.
  { unfold len in *. now rewrite length_map, enumerate_length. }
  split.
  { unfold len in *. now rewrite length_map. }
  split.
  { rewrite map_map. cbn [extracted_entry es_importance_rank].
    rewrite <- (map_map fst (fun i => i)), map_id. apply enumerate_fst. }
  split.
  { rewrite map_map. cbn [extracted_entry es_document es_page_number].
    rewrite <- (map_map snd (fun r => (ss_document r, ss_page_number r))).
    now rewrite enumerate_snd. }
  rewrite map_map. reflexivity.
Qed.

Lemma ranking_is_stable_and_contiguous_witness :
  0 <= 2 /\
  map ss_page_number (rank_sections example_sections 2) = [3; 1] /\
  map es_importance_rank (fst (format_output (rank_sections example_sections 2))) =
    map Z.of_nat (seq 1 (length (rank_sections example_sections 2))).
Proof.
  assert (H : Forall (fun r => ss_score r =
                   calculate_relevance_score (ss_text r) example_task example_persona)
                example_sections) by (repeat constructor).
  assert (K : 0 <= 2) by lia.
  pose proof (ranking_is_stable_and_contiguous example_sections 2
                example_task example_persona K H) as T.
  cbv zeta in T. destruct T as [_ [_ [_ [_ [_ [_ [T _]]]]]]].
  split; [exact K|]. split; [vm_compute; reflexivity | exact T].
Defined.

(** ** process_documents *)

Lemma subscript_trace (d : dict) (key : str) (tr : list event) :
  snd (subscript d key tr) = tr.
Proof. unfold subscript. now destruct (dict_lookup key d). Qed.

(** The list of file names cannot be built when an entry has no
    ["filename"]; nothing is appended to the trace. *)
Lemma filenames_raise (documents : list dict) (tr : list event) :
  (exists doc, In doc documents /\ dict_lookup (py "filename") doc = None) ->
  map_M (fun doc => subscript doc (py "filename")) documents tr =
  (Raise (KeyError (py "filename")), tr).
Proof.
  induction documents as [|d ds IH]; intros [doc [Hin Hnone]]; [contradiction|].
  cbn [map_M]. unfold bind at 1. unfold subscript at 1.
  destruct (dict_lookup (py "filename") d) as [v|] eqn:E.
  - unfold ret at 1. destruct Hin as [-> | Hin]; [congruence|].
    unfold bind. rewrite IH by eauto. reflexivity.
  - reflexivity.
Qed.

(** C10: when the configuration is parsed and an entry of its documents has
    no ["filename"], [process_documents] raises [KeyError] while it builds
    the metadata: the trace is left as it was, so no document has been
    opened and no output has been written. *)
Theorem missing_filename_aborts (w : world) (input_json_path output_path : str)
  (top_k_sections : Z) (input_config : input_config)
  (documents : list dict) (tr : list event) :
  load_json w input_json_path = Some input_config ->
  cfg_documents input_config = Some documents ->
  (exists doc, In doc documents /\ dict_lookup (py "filename") doc = None) ->
  process_documents w input_json_path output_path top_k_sections tr =
  (Raise (KeyError (py "filename")), tr).
Proof.
  intros Hl Hd Hm. unfold process_documents. rewrite Hl, Hd. cbv zeta.
  unfold bind at 1. now rewrite filenames_raise.
Qed.

Lemma missing_filename_aborts_witness :
  process_documents example_world (py "input.json") (py "output.json") 5 [] =
  (Raise (KeyError (py "filename")), []).
Proof.
  apply (missing_filename_aborts example_world (py "input.json") (py "output.json") 5
           example_config
           [ [(py "filename", py "a.pdf")]; [(py "title", py "Untitled")] ] []).
  - reflexivity.
  - reflexivity.
  - exists [(py "title", py "Untitled")]. split; [simpl; auto | reflexivity].
Defined.

(** The records that [process_documents] collects carry the score of their
    text for the task and the persona of the run. *)
Lemma score_page_scored (job_task persona_role filename : str) (page : Z * str) :
  Forall (fun r => ss_score r =
                   calculate_relevance_score (ss_text r) job_task persona_role)
    (score_page job_task persona_role filename page).
Proof.
  destruct page as [page_num page_text]. unfold score_page.
  destruct (is_empty (strip page_text)); [constructor|].
  apply Forall_forall. intros r Hr. apply in_map_iff in Hr.
  destruct Hr as [section_text [<- _]]. reflexivity.
Qed.

Lemma score_document_scored (w : world) (job_task persona_role : str)
  (doc_info : dict) (tr tr' : list event) (l : list scored_section) :
  score_document w job_task persona_role doc_info tr = (Return l, tr') ->
  Forall (fun r => ss_score r =
                   calculate_relevance_score (ss_text r) job_task persona_role) l.
Proof.
  unfold score_document, bind, subscript.
  destruct (dict_lookup (py "filename") doc_info) as [filename|];
    [|unfold raise; discriminate].
  unfold ret at 1. destruct (path_exists w filename); cbn [negb].
  - unfold extract_text_by_page, bind, emit.
    destruct (pdf_page_texts w filename) as [texts|]; unfold ret;
      intros H; injection H as <- _.
    + apply Forall_forall. intros r Hr. apply in_flat_map in Hr.
      destruct Hr as [page [_ Hr]].
      pose proof (score_page_scored job_task persona_role filename page) as F.
      rewrite Forall_forall in F. now apply F.
    + constructor.
  - unfold ret. intros H. injection H as <- _. constructor.
Qed.

Lemma all_scored_sections_scored (w : world) (job_task persona_role : str)
  (documents : list dict) (tr tr' : list event) (scored : list (list scored_section)) :
  map_M (score_document w job_task persona_role) documents tr = (Return scored, tr') ->
  Forall (fun r => ss_score r =
                   calculate_relevance_score (ss_text r) job_task persona_role)
    (concat scored).
Proof.
  revert tr tr' scored. induction documents as [|d ds IH]; intros tr tr' scored.
  - cbn [map_M]. unfold ret. intros H. injection H as <- _. constructor.
  - cbn [map_M]. unfold bind at 1.
    destruct (score_document w job_task persona_role d tr) as [[l|e] tr1] eqn:E1;
      [|discriminate].
    unfold bind at 1.
    destruct (map_M (score_document w job_task persona_role) ds tr1)
      as [[ls|e] tr2] eqn:E2; [|discriminate].
    unfold ret. intros H. injection H as <- _. cbn [concat].
    apply Forall_app. split.
    + eapply score_document_scored. exact E1.
    + eapply IH. exact E2.
Qed.

(** [of_halves n] is the quotient of [n] by [2.0], which is exact. *)
Lemma of_halves_value (n : Z) :
  0 <= n <= 273 -> of_halves n = fdiv (of_int n) F2_0.
Proof.
  intros Hn.
  assert (C : forallb (fun n => float_eqb (of_halves n) (fdiv (of_int n) F2_0))
                (range 274) = true) by (vm_compute; reflexivity).
  pose proof (forallb_In _ _ n C (In_range 274 n ltac:(lia))) as E.
  unfold float_eqb in E.
  destruct (float_eq_dec (of_halves n) (fdiv (of_int n) F2_0));
    [assumption | discriminate].
Qed.

(** A run that reads its configuration, finds a file name in every entry
    and can write: the output is the ranking of the collected sections. *)
Lemma process_documents_writes (w : world) (input_json_path output_path : str)
  (top_k_sections : Z) (input_config : input_config)
  (input_documents : list str) (scored : list (list scored_section))
  (tr tr1 tr2 : list event) :
  let documents :=
    match cfg_documents input_config with Some l => l | None => [] end in
  let persona_info :=
    match cfg_persona input_config with Some d => d | None => [] end in
  let job_info :=
    match cfg_job_to_be_done input_config with Some d => d | None => [] end in
  let persona_role :=
    dict_get (py "role") (dict_get (py "persona") (py "User") persona_info)
      persona_info in
  let job_task :=
    dict_get (py "task")
      (dict_get (py "description") (py "Process documents") job_info) job_info in
  let top_sections := rank_sections (concat scored) top_k_sections in
  load_json w input_json_path = Some input_config ->
  map_M (fun doc => subscript doc (py "filename")) documents tr =
    (Return input_documents, tr1) ->
  map_M (score_document w job_task persona_role) documents tr1 =
    (Return scored, tr2) ->
  writable w output_path = true ->
  process_documents w input_json_path output_path top_k_sections tr =
  (Return tt,
   tr2 ++ [Output_written output_path
             (mk_output_data
                (mk_metadata input_documents persona_role job_task
                   (now_isoformat w) (py "offline_v1.0"))
                (fst (format_output top_sections))
                (snd (format_output top_sections)))]).
Proof.
  intros documents persona_info job_info persona_role job_task top_sections
    Hl Hn Hs Hw.
  unfold process_documents. rewrite Hl. cbv zeta.
  fold documents. fold persona_info. fold job_info.
  fold persona_role. fold job_task.
  unfold bind at 1. rewrite Hn. unfold bind at 1. rewrite Hs.
  fold top_sections. destruct (format_output top_sections) as [ex an].
  rewrite Hw. reflexivity.
Qed.

(** * Further properties of the code *)

(** ** clean_text applied again *)

Lemma sub_ws_runs_id (t : str) :
  no_ws_run t = true ->
  Forall (fun c => isspace c = true -> c = SP) t ->
  sub_ws_runs t = t.
Proof.
  intros Hr F. induction F as [|c t Hc F IH]; [reflexivity|].
  cbn [no_ws_run] in Hr. apply andb_true_iff in Hr. destruct Hr as [H1 H2].
  cbn [sub_ws_runs]. rewrite (IH H2). destruct (isspace c) eqn:E; [|reflexivity].
  cbn [andb] in H1. apply negb_true_iff in H1. rewrite H1.
  now rewrite (Hc eq_refl).
Qed.

(** A text that is already normalised and has no run of spaces is left as
    it is. *)
Lemma clean_text_fixed (t : str) :
  Forall (fun c => kept c = true) t ->
  Forall (fun c => isspace c = true -> c = SP) t ->
  no_ws_run t = true -> strip t = t ->
  clean_text t = t.
Proof.
  intros K O R S. unfold clean_text.
  rewrite sub_ws_runs_id by assumption.
  now rewrite sub_special_id.
Qed.

Lemma clean_text_of_kept (s : str) :
  Forall (fun c => kept c = true) s ->
  clean_text s = strip (sub_ws_runs s) /\ no_ws_run (clean_text s) = true.
Proof.
  intros K. unfold clean_text.
  rewrite sub_special_id by now apply sub_ws_runs_kept.
  split; [reflexivity|]. apply strip_no_ws_run, sub_ws_runs_no_run.
Qed.

Lemma split_clean_text_kept (s : str) :
  Forall (fun c => kept c = true) s -> split (clean_text s) = split s.
Proof.
  intros K. unfold clean_text.
  now rewrite split_strip, split_sub_special_runs, sub_special_id.
Qed.

(** X1: [clean_text] is not idempotent, but its second application reaches
    a fixed point: [clean_text (clean_text s)] has no run of spaces, is left
    unchanged by [clean_text] and has the words of [clean_text s]; on an
    input without special characters the first application is already a
    fixed point. *)
Theorem clean_text_twice (s : str) :
  let t := clean_text (clean_text s) in
  clean_text t = t /\
  no_ws_run t = true /\
  split t = split (clean_text s) /\
  (Forall (fun c => kept c = true) s -> clean_text (clean_text s) = clean_text s) /\
  clean_text (clean_text (py "a @ b")) <> clean_text (py "a @ b").
Proof.
  intros t.
  assert (Fix : forall u, Forall (fun c => kept c = true) u ->
                  clean_text (clean_text u) = clean_text u).
  { intros u K. destruct (clean_text_of_kept u K) as [_ R].
    apply clean_text_fixed; try assumption.
    - apply clean_text_kept.
    - apply clean_text_only_SP.
    - apply clean_text_stripped. }
  split; [apply Fix, clean_text_kept|].
  split; [apply (clean_text_of_kept (clean_text s)), clean_text_kept|].
  split; [apply split_clean_text_kept, clean_text_kept|].
  split; [exact (Fix s)|].
  vm_compute. discriminate.
Qed.

Lemma clean_text_twice_witness :
  clean_text (clean_text (py " a,  b ")) = clean_text (py " a,  b ").
Proof.
  apply (proj1 (proj2 (proj2 (proj2 (clean_text_twice (py " a,  b ")))))).
  repeat constructor.
Defined.

(** ** extract_keywords *)

Lemma ascii_cases (P : ascii -> Prop) :
  (forall b0 b1 b2 b3 b4 b5 b6 b7, P (Ascii b0 b1 b2 b3 b4 b5 b6 b7)) ->
  forall c, P c.
Proof. intros H [b0 b1 b2 b3 b4 b5 b6 b7]. apply H. Qed.

Lemma lower_char_idempotent (c : ascii) : lower_char (lower_char c) = lower_char c.
Proof.
  revert c. apply ascii_cases.
  intros [] [] [] [] [] [] [] []; vm_compute; reflexivity.
Qed.

Lemma isspace_lower_char (c : ascii) : isspace (lower_char c) = isspace c.
Proof.
  revert c. apply ascii_cases.
  intros [] [] [] [] [] [] [] []; vm_compute; reflexivity.
Qed.

Lemma lower_idempotent (s : str) : lower (lower s) = lower s.
Proof.
  unfold lower. rewrite map_map. apply map_ext. apply lower_char_idempotent.
Qed.

Section CharInvariant.
Variable P : ascii -> Prop.
Hypothesis P_SP : P SP.

Lemma sub_ws_runs_Forall (s : str) : Forall P s -> Forall P (sub_ws_runs s).
Proof.
  induction 1 as [|c s Hc Hs IH]; cbn [sub_ws_runs]; [constructor|].
  destruct (isspace c); [destruct (starts_with_char isspace s)|];
    try assumption; now constructor.
Qed.

Lemma sub_special_Forall (s : str) : Forall P s -> Forall P (sub_special s).
Proof.
  unfold sub_special. induction 1 as [|c s Hc Hs IH]; cbn [map]; [constructor|].
  constructor; [destruct (kept c)|]; assumption.
Qed.

Lemma clean_text_Forall (s : str) : Forall P s -> Forall P (clean_text s).
Proof.
  intros H. unfold clean_text.
  now apply strip_Forall, sub_special_Forall, sub_ws_runs_Forall.
Qed.
End CharInvariant.

(** Every run is a non-empty string of characters of the class, taken from
    the text. *)
Lemma runs_elements (p : ascii -> bool) (s : str) :
  Forall (fun w => w <> [] /\ Forall (fun c => p c = true /\ In c s) w) (runs p s).
Proof.
  induction s as [|c s IH]; [constructor|].
  assert (IH' : Forall (fun w => w <> [] /\
                  Forall (fun d => p d = true /\ In d (c :: s)) w) (runs p s)).
  { eapply Forall_impl; [|exact IH]. intros w [Hw F]. split; [assumption|].
    eapply Forall_impl; [|exact F]. intros d [Hd Hin]. split; [assumption | now right]. }
  rewrite runs_cons. destruct (p c) eqn:Hc; [|exact IH'].
  assert (C : p c = true /\ In c (c :: s)) by (split; [assumption | now left]).
  destruct (starts_with_char p s).
  - destruct (runs p s) as [|w ws].
    + repeat constructor; [discriminate | assumption].
    + inversion IH' as [|w' ws' [Hw F] Hws]; subst.
      constructor; [|assumption]. split; [discriminate | now constructor].
  - constructor; [|assumption]. split; [discriminate | now repeat constructor].
Qed.

Lemma counter_add_keys (w k : str) (c : list (str * Z)) :
  In k (map fst (counter_add w c)) <-> k = w \/ In k (map fst c).
Proof.
  induction c as [|[k' n] c IH]; cbn [counter_add map fst In].
  - intuition.
  - destruct (str_eqb k' w) eqn:E; cbn [map fst In].
    + apply str_eqb_eq in E. subst k'. intuition.
    + rewrite IH. intuition.
Qed.

Lemma counter_add_NoDup (w : str) (c : list (str * Z)) :
  NoDup (map fst c) -> NoDup (map fst (counter_add w c)).
Proof.
  induction c as [|[k' n] c IH]; cbn [counter_add map fst]; intros H.
  - repeat constructor. intros [].
  - inversion H as [|x l Hx Hl]; subst.
    destruct (str_eqb k' w) eqn:E; cbn [map fst].
    + now constructor.
    + constructor; [|now apply IH].
      rewrite counter_add_keys. intros [-> | Hin]; [|contradiction].
      now rewrite str_eqb_refl in E.
Qed.

Lemma counter_loop_keys (words : list str) (c : list (str * Z)) (k : str) :
  In k (map fst (fold_left (fun c w => counter_add w c) words c)) <->
  In k words \/ In k (map fst c).
Proof.
  revert c. induction words as [|w words IH]; intros c; cbn [fold_left In].
  - intuition.
  - rewrite IH, counter_add_keys. intuition.
Qed.

Lemma counter_loop_NoDup (words : list str) (c : list (str * Z)) :
  NoDup (map fst c) ->
  NoDup (map fst (fold_left (fun c w => counter_add w c) words c)).
Proof.
  revert c. induction words as [|w words IH]; intros c H; cbn [fold_left];
    [assumption|]. now apply IH, counter_add_NoDup.
Qed.

Lemma firstn_In {A : Type} (n : nat) (l : list A) (x : A) :
  In x (firstn n l) -> In x l.
Proof.
  intros H. rewrite <- (firstn_skipn n l). apply in_or_app. now left.
Qed.

Lemma most_common_incl (n : Z) (c : list (str * Z)) (e : str * Z) :
  0 <= n -> In e (most_common n c) -> In e c.
Proof.
  intros Hn H. unfold most_common in H. rewrite slice_to_nonneg in H by assumption.
  apply (sort_desc_In (fun y x => snd x <? snd y)). eapply firstn_In. exact H.
Qed.

Lemma most_common_NoDup (n : Z) (c : list (str * Z)) :
  0 <= n -> NoDup (map fst c) -> NoDup (map fst (most_common n c)).
Proof.
  intros Hn H. unfold most_common. rewrite slice_to_nonneg by assumption.
  rewrite <- firstn_map. apply firstn_NoDup.
  eapply Permutation_NoDup; [|exact H].
  apply Permutation_map. symmetry. apply sort_desc_perm.
Qed.

Lemma extract_keywords_tokens (text k : str) :
  In k (extract_keywords text) -> In k (keyword_tokens text).
Proof.
  unfold extract_keywords. cbv zeta. fold (keyword_tokens text). intros H.
  apply in_map_iff in H. destruct H as [[k' n] [E H]]. cbn [fst] in E. subst k'.
  apply most_common_incl in H; [|lia].
  assert (Hk : In k (map fst (Counter (keyword_tokens text)))).
  { apply in_map_iff. exists (k, n). auto. }
  unfold Counter in Hk. apply counter_loop_keys in Hk.
  destruct Hk as [Hk | []]. exact Hk.
Qed.

Lemma extract_keywords_elements (text : str) :
  Forall (fun k =>
            3 <= len k /\
            Forall (fun c => isword c = true) k /\
            lower k = k /\
            mem k stop_words = false) (extract_keywords text).
Proof.
  apply Forall_forall. intros k Hk. apply extract_keywords_tokens in Hk.
  unfold keyword_tokens in Hk. apply filter_In in Hk. destruct Hk as [Hk Hs].
  unfold findall_words in Hk. apply filter_In in Hk. destruct Hk as [Hk Hl].
  pose proof (runs_elements isword (clean_text (lower text))) as R.
  rewrite Forall_forall in R. destruct (R k Hk) as [_ F].
  assert (L : Forall (fun c => lower_char c = c) (clean_text (lower text))).
  { apply clean_text_Forall; [reflexivity|].
    unfold lower. apply Forall_forall. intros c Hc.
    apply in_map_iff in Hc. destruct Hc as [d [<- _]].
    apply lower_char_idempotent. }
  rewrite Forall_forall in L.
  repeat split.
  - now apply Z.leb_le.
  - eapply Forall_impl; [|exact F]. now intros c [Hc _].
  - unfold lower. rewrite <- (map_id k) at 2. apply map_ext_in.
    intros c Hc. rewrite Forall_forall in F. apply L. now apply F.
  - now apply negb_true_iff.
Qed.

(** X2: the keyword profile has at most 20 keywords, without repetition;
    every keyword has at least three characters, all of them word characters,
    is in lower case and is not a stop word. *)
Theorem extract_keywords_profile (text : str) :
  let keywords := extract_keywords text in
  len keywords <= 20 /\
  NoDup keywords /\
  Forall (fun k =>
            3 <= len k /\
            Forall (fun c => isword c = true) k /\
            lower k = k /\
            mem k stop_words = false) keywords.
Proof.
  intros keywords. split; [apply extract_keywords_len|]. split.
  - unfold keywords, extract_keywords. cbv zeta.
    apply most_common_NoDup; [lia|]. apply counter_loop_NoDup. constructor.
  - apply extract_keywords_elements.
Qed.

Lemma counter_get_add (w k : str) (c : list (str * Z)) :
  counter_get k (counter_add w c) =
  counter_get k c + (if str_eqb w k then 1 else 0).
Proof.
  induction c as [|[k' n] c IH]; cbn [counter_add counter_get].
  - destruct (str_eqb w k); reflexivity.
  - destruct (str_eqb k' w) eqn:E; cbn [counter_get].
    + apply str_eqb_eq in E. subst k'. destruct (str_eqb w k); lia.
    + destruct (str_eqb k' k) eqn:E'; [|exact IH].
      apply str_eqb_eq in E'. subst k'.
      destruct (str_eqb w k) eqn:E2; [|lia].
      apply str_eqb_eq in E2. subst w. rewrite str_eqb_refl in E. discriminate.
Qed.

Lemma occurrences_cons (w k : str) (words : list str) :
  occurrences (w :: words) k =
  (if str_eqb w k then 1 else 0) + occurrences words k.
Proof.
  unfold occurrences, str_eqb. cbn [count_occ].
  destruct (list_eq_dec ascii_dec w k); lia.
Qed.

(** A [Counter] holds for every key the number of its occurrences. *)
Lemma counter_loop_get (words : list str) (c : list (str * Z)) (k : str) :
  counter_get k (fold_left (fun c w => counter_add w c) words c) =
  counter_get k c + occurrences words k.
Proof.
  revert c. induction words as [|w words IH]; intros c; cbn [fold_left].
  - unfold occurrences. simpl. lia.
  - rewrite IH, counter_get_add, occurrences_cons. lia.
Qed.

Lemma counter_get_In (c : list (str * Z)) (k : str) (n : Z) :
  NoDup (map fst c) -> In (k, n) c -> counter_get k c = n.
Proof.
  induction c as [|[k' n'] c IH]; cbn [map fst counter_get]; intros H Hin;
    [contradiction|].
  inversion H as [|x l Hx Hl]; subst. destruct Hin as [E | Hin].
  - injection E as -> ->. now rewrite str_eqb_refl.
  - destruct (str_eqb k' k) eqn:E; [|now apply IH].
    apply str_eqb_eq in E. subst k'. exfalso. apply Hx.
    apply in_map_iff. exists (k, n). auto.
Qed.

Lemma Counter_count (words : list str) (k : str) (n : Z) :
  In (k, n) (Counter words) -> n = occurrences words k.
Proof.
  intros H. unfold Counter in *.
  rewrite <- (counter_get_In _ k n (counter_loop_NoDup words [] (NoDup_nil _)) H).
  rewrite counter_loop_get. reflexivity.
Qed.

Lemma firstn_StronglySorted {A : Type} (R : A -> A -> Prop) (n : nat) (l : list A) :
  StronglySorted R l -> StronglySorted R (firstn n l).
Proof.
  revert n. induction l as [|x l IH]; intros [|n] H; cbn [firstn];
    try constructor.
  - apply IH. now inversion H.
  - apply firstn_Forall. now inversion H.
Qed.

Lemma map_StronglySorted {A B : Type} (f : A -> B)
  (R : A -> A -> Prop) (R' : B -> B -> Prop) (l : list A) :
  (forall a b, In a l -> In b l -> R a b -> R' (f a) (f b)) ->
  StronglySorted R l -> StronglySorted R' (map f l).
Proof.
  intros H S. induction S as [|x l S IH F]; cbn [map]; constructor.
  - apply IH. intros a b Ha Hb. apply H; now right.
  - apply Forall_forall. intros y Hy. apply in_map_iff in Hy.
    destruct Hy as [b [<- Hb]]. rewrite Forall_forall in F.
    apply H; [now left | now right | now apply F].
Qed.

(** X3: the keywords are tokens of the text, ordered by the number of their
    occurrences among the tokens, the most frequent first; and no token is
    left out of a profile that has fewer than 20 keywords. *)
Theorem extract_keywords_by_frequency (text : str) :
  let tokens := keyword_tokens text in
  let keywords := extract_keywords text in
  (forall k, In k keywords -> In k tokens) /\
  StronglySorted (fun a b => occurrences tokens b <= occurrences tokens a) keywords /\
  (len keywords < 20 -> forall w, In w tokens -> In w keywords).
Proof.
  intros tokens keywords.
  split; [intros k; apply extract_keywords_tokens|].
  set (gt := fun y x : str * Z => snd x <? snd y).
  assert (E : keywords = map fst (firstn 20 (sort_desc gt (Counter tokens)))).
  { unfold keywords, extract_keywords, most_common. cbv zeta.
    fold (keyword_tokens text). now rewrite slice_to_nonneg by lia. }
  split.
  - rewrite E.
    apply map_StronglySorted with (R := fun a b : str * Z => snd b <= snd a).
    + intros [a n] [b m] Ha Hb. cbn [fst snd].
      apply firstn_In, sort_desc_In in Ha. apply firstn_In, sort_desc_In in Hb.
      apply Counter_count in Ha. apply Counter_count in Hb. now subst.
    + apply firstn_StronglySorted.
      apply sort_desc_sorted with (ok := fun _ => True).
      * intros x y G. unfold gt in G. apply Z.ltb_lt in G. lia.
      * intros x y _ _ G. unfold gt in G. apply Z.ltb_ge in G. lia.
      * intros x y z. lia.
      * apply Forall_forall. trivial.
  - intros Hlen w Hw.
    assert (L : (length (sort_desc gt (Counter tokens)) < 20)%nat).
    { rewrite E in Hlen. unfold len in Hlen.
      rewrite length_map, length_firstn in Hlen. lia. }
    rewrite E, firstn_all2 by lia.
    assert (Hk : In w (map fst (Counter tokens))).
    { unfold Counter. apply counter_loop_keys. now left. }
    apply in_map_iff in Hk. destruct Hk as [e [<- He]].
    apply in_map. now apply sort_desc_In.
Qed.

Lemma extract_keywords_by_frequency_witness :
  In (py "fill") (extract_keywords (py "Create forms and fill forms")).
Proof.
  apply (proj2 (proj2 (extract_keywords_by_frequency (py "Create forms and fill forms")))).
  - vm_compute. reflexivity.
  - vm_compute. auto.
Defined.

(** ** calculate_relevance_score: bounds, zero and letter case *)

(** X4: the score is bounded: it never exceeds 136.5 * 1.2 * 1.3, which is
    below 213. *)
Theorem calculate_relevance_score_upper_bound (section task_text persona : str) :
  let bound := fmul (fmul (of_halves 273) F1_2) F1_3 in
  fle (calculate_relevance_score section task_text persona) bound = true /\
  fle bound (of_int 213) = true.
Proof.
  intros bound. split; [|vm_compute; reflexivity].
  rewrite calculate_relevance_score_spec. unfold relevance_score_spec.
  pose proof (additive_halves_bounds section task_text persona).
  pose proof (length_class_bounds section).
  change bound with (boosted 273 2 true).
  apply boosted_mono; try lia; auto.
Qed.

Lemma positive_ok_all :
  forallb (fun n =>
             forallb (fun lc => forallb (positive_ok n lc) [false; true]) [0; 1; 2])
    (range 274) = true.
Proof. vm_compute. reflexivity. Qed.

Lemma boosted_sign (n lc : Z) (b : bool) :
  0 <= n <= 273 -> 0 <= lc <= 2 ->
  (n = 0 -> boosted n lc b = F0_0) /\
  (0 < n -> flt F0_0 (boosted n lc b) = true).
Proof.
  intros Hn Hlc.
  assert (Hin : In lc [0; 1; 2]) by (simpl; lia).
  assert (Hb : In b [false; true]) by (destruct b; simpl; auto).
  pose proof (forallb_In _ _ b
                (forallb_In _ _ lc
                   (forallb_In _ _ n positive_ok_all
                      (In_range 274 n ltac:(lia))) Hin) Hb) as C.
  unfold positive_ok in C. split; intros H.
  - assert (E : (n =? 0) = true) by (apply Z.eqb_eq; exact H).
    rewrite E in C. unfold float_eqb in C.
    destruct (float_eq_dec (boosted n lc b) F0_0); [assumption | discriminate].
  - assert (E : (n =? 0) = false) by (apply Z.eqb_neq; lia).
    now rewrite E in C.
Qed.

Lemma contains_nil (k : str) : k <> [] -> contains [] k = false.
Proof. destruct k; [congruence | reflexivity]. Qed.

Lemma count_in_nil (keywords : list str) :
  Forall (fun k : str => k <> []) keywords -> count_in keywords [] = 0.
Proof.
  intros F. unfold count_in.
  replace (filter (fun keyword => contains [] keyword) keywords) with (@nil str);
    [reflexivity|].
  induction F as [|k l Hk F IH]; [reflexivity|].
  cbn [filter]. now rewrite (contains_nil k Hk).
Qed.

Lemma extract_keywords_nonempty (text : str) :
  Forall (fun k => k <> []) (extract_keywords text).
Proof.
  eapply Forall_impl; [|apply extract_keywords_elements].
  intros k [H _] ->. unfold len in H. simpl in H. lia.
Qed.

Lemma domain_bonus_nil (combined_text : str) (domains : list (str * list str)) :
  Forall (fun entry : str * list str =>
            Forall (fun k : str => k <> []) (snd entry)) domains ->
  domain_bonus combined_text [] domains = 0.
Proof.
  unfold domain_bonus. induction 1 as [|e ds He Hds IH]; [reflexivity|].
  cbn [map fold_right]. rewrite IH, (count_in_nil _ He).
  now destruct (0 <? count_in (snd e) combined_text).
Qed.

Lemma additive_halves_nil (task_text persona : str) :
  additive_halves [] task_text persona = 0.
Proof.
  unfold additive_halves. cbv zeta. change (lower []) with (@nil ascii).
  rewrite !count_in_nil, domain_bonus_nil; try apply extract_keywords_nonempty.
  - reflexivity.
  - repeat constructor; discriminate.
  - repeat constructor; discriminate.
Qed.

(** X5: a section in which nothing matches (no task keyword, persona
    keyword, keyword of an activated domain or action verb) has the score
    0.0 whatever its length; any match makes the score positive; and the
    empty section scores 0.0 for every task and persona. *)
Theorem calculate_relevance_score_zero (section task_text persona : str) :
  (additive_halves section task_text persona = 0 ->
   calculate_relevance_score section task_text persona = F0_0) /\
  (0 < additive_halves section task_text persona ->
   flt F0_0 (calculate_relevance_score section task_text persona) = true) /\
  calculate_relevance_score [] task_text persona = F0_0.
Proof.
  assert (S : forall s,
            (additive_halves s task_text persona = 0 ->
             calculate_relevance_score s task_text persona = F0_0) /\
            (0 < additive_halves s task_text persona ->
             flt F0_0 (calculate_relevance_score s task_text persona) = true)).
  { intros s. rewrite calculate_relevance_score_spec. unfold relevance_score_spec.
    apply boosted_sign;
      [apply additive_halves_bounds | apply length_class_bounds]. }
  split; [apply S|]. split; [apply S|].
  apply S, additive_halves_nil.
Qed.

Lemma calculate_relevance_score_zero_witness :
  calculate_relevance_score (py "nothing relevant here")
    (py "create onboarding forms") (py "HR Manager") = F0_0 /\
  flt F0_0 (calculate_relevance_score (py "fill the form")
              (py "create onboarding forms") (py "HR Manager")) = true.
Proof.
  split.
  - apply (proj1 (calculate_relevance_score_zero (py "nothing relevant here")
                    (py "create onboarding forms") (py "HR Manager"))).
    vm_compute. reflexivity.
  - apply (proj1 (proj2 (calculate_relevance_score_zero (py "fill the form")
                    (py "create onboarding forms") (py "HR Manager")))).
    vm_compute. reflexivity.
Defined.

Lemma starts_with_char_lower (s : str) :
  starts_with_char nonspace (lower s) = starts_with_char nonspace s.
Proof.
  destruct s as [|c s]; [reflexivity|]. cbn. unfold nonspace.
  now rewrite isspace_lower_char.
Qed.

Lemma word_count_lower (s : str) : word_count (lower s) = word_count s.
Proof.
  unfold word_count, len, split. f_equal.
  induction s as [|c s IH]; [reflexivity|].
  change (lower (c :: s)) with (lower_char c :: lower s).
  rewrite !length_runs_cons, IH, starts_with_char_lower.
  unfold nonspace at 1 3. now rewrite isspace_lower_char.
Qed.

(** X6: the score does not depend on letter case: lowering the section, the
    task or the persona leaves it unchanged. *)
Theorem calculate_relevance_score_case_insensitive (section task_text persona : str) :
  calculate_relevance_score (lower section) (lower task_text) (lower persona) =
  calculate_relevance_score section task_text persona.
Proof.
  unfold calculate_relevance_score. cbv zeta.
  now rewrite !lower_idempotent, word_count_lower.
Qed.

(** ** split_sections: the groups of the sentence stage, blank pages *)

Lemma total_words_app (l1 l2 : list str) :
  total_words (l1 ++ l2) = total_words l1 + total_words l2.
Proof.
  induction l1 as [|x l1 IH]; [reflexivity|].
  cbn [app]. rewrite !total_words_cons, IH. lia.
Qed.

Lemma group_step_invariant (min_words : Z) (sections : list str)
  (st : group_state) (sentence : str) :
  group_invariant min_words sections st ->
  group_invariant min_words sections (group_step min_words sections st sentence).
Proof.
  intros [G [C E]]. unfold group_step. cbv zeta.
  destruct (is_empty (strip sentence)) eqn:Hs; [now repeat split|].
  apply is_empty_false in Hs.
  assert (C' : Forall (fun x => x <> [] /\ ends_with_char isspace x = false)
                 (current_group st ++ [strip sentence])).
  { apply Forall_app. split; [assumption|].
    repeat constructor; [assumption | apply strip_last]. }
  assert (E' : current_word_count st + word_count (strip sentence) =
               total_words (current_group st ++ [strip sentence])).
  { rewrite total_words_app, E. cbn. lia. }
  destruct (Z.leb_spec min_words
              (current_word_count st + word_count (strip sentence))) as [Hle|Hlt].
  - repeat split; cbn [sentence_groups current_group current_word_count];
      try constructor.
    destruct (mem (join (py ". ") (current_group st ++ [strip sentence]) ++ py ".")
                sections) eqn:M; [assumption|].
    apply Forall_app. split; [assumption|]. constructor; [|constructor].
    repeat split.
    + rewrite word_count_join_sentences; [lia | | assumption].
      now destruct (current_group st).
    + eauto.
    + intros Hin. apply mem_In in Hin. congruence.
  - now repeat split.
Qed.

Lemma group_loop_invariant (min_words : Z) (sections sentences : list str)
  (st : group_state) :
  group_invariant min_words sections st ->
  group_invariant min_words sections (group_loop min_words sections sentences st).
Proof.
  revert st. induction sentences as [|s l IH]; intros st H; [exact H|].
  apply IH, group_step_invariant, H.
Qed.

(** X7: every group that the sentence-accumulation stage emits has at least
    [min_words] words, so the later filter never drops one of them; it ends
    with a full stop and it is not one of the candidates found before. *)
Theorem sentence_groups_reach_threshold (text : str) (min_words : Z)
  (sections : list str) :
  Forall (fun g => min_words <= word_count g /\
                   (exists body, g = body ++ py ".") /\
                   ~ In g sections)
    (sentence_based_sections text min_words sections).
Proof.
  unfold sentence_based_sections.
  apply (group_loop_invariant min_words sections (re_split sentence_end text)
           (mk_group_state [] [] 0)).
  repeat split; constructor.
Qed.

Lemma stripped_without_words (s : str) : strip s = s -> split s = [] -> s = [].
Proof.
  intros Hs Hw. destruct s as [|c s]; [reflexivity|].
  pose proof (strip_head (c :: s)) as H. rewrite Hs in H.
  assert (N : starts_with_char nonspace (c :: s) = true).
  { cbn in *. unfold nonspace. now rewrite H. }
  destruct (runs_starts nonspace _ N) as [w [ws E]].
  unfold split in Hw. congruence.
Qed.

(** X8: a page without any word after normalisation gives no section when
    [min_words] is at least 1, and the single empty section when [min_words]
    is 0 or negative. *)
Theorem split_sections_blank_page (text : str) (min_words : Z) :
  word_count (clean_text text) = 0 ->
  (1 <= min_words -> split_sections text min_words = []) /\
  (min_words <= 0 -> split_sections text min_words = [[]]).
Proof.
  intros Hw.
  assert (E : clean_text text = []).
  { apply stripped_without_words; [apply clean_text_stripped|].
    unfold word_count, len in Hw. destruct (split (clean_text text)); [reflexivity|].
    simpl in Hw. lia. }
  unfold split_sections. cbv zeta. rewrite E.
  unfold candidate_sections, double_newline_sections, single_newline_sections,
    sentence_based_sections, unique_sections. cbn.
  split; intros H.
  - assert (L : (min_words <=? 0) = false) by (apply Z.leb_gt; lia).
    rewrite L. reflexivity.
  - assert (L : (min_words <=? 0) = true) by (apply Z.leb_le; lia).
    rewrite L. cbn. rewrite L. reflexivity.
Qed.

Lemma split_sections_blank_page_witness :
  split_sections (py " @ # ") 15 = [] /\ split_sections (py " @ # ") 0 = [[]].
Proof.
  assert (H : word_count (clean_text (py " @ # ")) = 0) by reflexivity.
  split.
  - apply (proj1 (split_sections_blank_page (py " @ # ") 15 H)). lia.
  - apply (proj2 (split_sections_blank_page (py " @ # ") 0 H)). lia.
Defined.

(** ** extract_text_by_page *)

Lemma enumerate_from_In {A : Type} (start : Z) (l : list A) (a : nat) (i : Z) (x : A) :
  In (i, x) (combine (map (fun j => start + Z.of_nat j) (seq a (length l))) l) ->
  exists j, (j < length l)%nat /\ i = start + Z.of_nat (a + j) /\
            nth_error l j = Some x.
Proof.
  revert a. induction l as [|y l IH]; intros a; cbn [length seq map combine];
    [intros []|].
  intros [E | H].
  - injection E as <- <-. exists 0%nat. repeat split; [lia | f_equal; lia].
  - destruct (IH _ H) as [j [Hj [Hi Hn]]]. exists (S j).
    repeat split; [lia | rewrite Hi; f_equal; lia | exact Hn].
Qed.

Lemma enumerate_nth {A : Type} (start : Z) (l : list A) (i : Z) (x : A) :
  In (i, x) (enumerate start l) ->
  start <= i < start + len l /\ nth_error l (Z.to_nat (i - start)) = Some x.
Proof.
  intros H. apply enumerate_from_In in H. destruct H as [j [Hj [Hi Hn]]].
  unfold len. split; [lia|].
  replace (Z.to_nat (i - start)) with j by lia. exact Hn.
Qed.

Lemma seq_increasing (start : Z) (a n : nat) :
  StronglySorted Z.lt (map (fun j => start + Z.of_nat j) (seq a n)).
Proof.
  revert a. induction n as [|n IH]; intros a; cbn [seq map]; constructor.
  - apply IH.
  - apply Forall_forall. intros z Hz. apply in_map_iff in Hz.
    destruct Hz as [j [<- Hj]]. apply in_seq in Hj. lia.
Qed.

Lemma filter_StronglySorted {A : Type} (R : A -> A -> Prop) (f : A -> bool)
  (l : list A) :
  StronglySorted R l -> StronglySorted R (filter f l).
Proof.
  induction 1 as [|x l S IH F]; cbn [filter]; [constructor|].
  destruct (f x); [|assumption]. constructor; [assumption|].
  apply Forall_forall. intros y Hy. apply filter_In in Hy.
  rewrite Forall_forall in F. now apply F.
Qed.

Lemma filter_map_snd {A B : Type} (q : B -> bool) (l : list (A * B)) :
  map snd (filter (fun '(_, b) => q b) l) = filter q (map snd l).
Proof.
  induction l as [|[a b] l IH]; [reflexivity|].
  cbn [filter map snd]. destruct (q b); cbn [map snd]; now rewrite IH.
Qed.

(** X9: [extract_text_by_page] never raises and opens the file once.  When
    the file cannot be read it returns no page; otherwise it returns the
    texts of the pages that are not blank, in their order, each with its
    1-based position in the document, so that the page numbers increase. *)
Theorem extract_text_by_page_pages (w : world) (pdf_path : str) (tr : list event) :
  let pages := pages_of w pdf_path in
  extract_text_by_page w pdf_path tr = (Return pages, tr ++ [Open_document pdf_path]) /\
  (pdf_page_texts w pdf_path = None -> pages = []) /\
  (forall texts, pdf_page_texts w pdf_path = Some texts ->
     map snd pages = filter (fun text => negb (is_empty (strip text))) texts /\
     (forall n text, In (n, text) pages ->
        1 <= n <= len texts /\
        nth_error texts (Z.to_nat (n - 1)) = Some text /\
        strip text <> [])) /\
  StronglySorted Z.lt (map fst pages).
Proof.
  intros pages. unfold pages, pages_of.
  split.
  { unfold extract_text_by_page, bind, emit.
    destruct (pdf_page_texts w pdf_path); reflexivity. }
  split; [now intros ->|]. split.
  - intros texts ->. split.
    + rewrite map_map.
      rewrite (map_ext (fun x : Z * str => snd (let '(i, text) := x in (i + 1, text)))
                 snd) by (now intros [i t]).
      rewrite (filter_map_snd (fun text => negb (is_empty (strip text)))).
      now rewrite enumerate_snd.
    + intros n text H. apply in_map_iff in H. destruct H as [[i t] [E H]].
      injection E as <- <-. apply filter_In in H. destruct H as [H Hb].
      apply enumerate_nth in H. destruct H as [Hi Hn].
      replace (i + 1 - 1) with (i - 0) by lia.
      repeat split; try lia; [exact Hn|].
      apply is_empty_false. now apply negb_true_iff.
  - destruct (pdf_page_texts w pdf_path) as [texts|]; [|constructor].
    rewrite map_map.
    rewrite (map_ext (fun x : Z * str => fst (let '(i, text) := x in (i + 1, text)))
               (fun x => fst x + 1)) by (now intros [i t]).
    rewrite <- (map_map fst (fun i => i + 1)).
    apply map_StronglySorted with (R := Z.lt); [intros a b _ _; lia|].
    assert (S : StronglySorted (fun a b : Z * str => fst a < fst b) (enumerate 0 texts)).
    { assert (M : StronglySorted Z.lt (map fst (enumerate 0 texts))).
      { unfold enumerate.
        rewrite combine_map_fst by (now rewrite length_map, length_seq).
        apply seq_increasing. }
      revert M. generalize (enumerate 0 texts). intros l.
      induction l as [|x l IH]; cbn [map]; intros M; constructor;
        inversion M as [|y m Sm Fm]; subst.
      - now apply IH.
      - apply Forall_forall. intros y Hy. rewrite Forall_forall in Fm.
        apply Fm. now apply in_map. }
    apply map_StronglySorted with (R := fun a b : Z * str => fst a < fst b);
      [now intros a b _ _|].
    now apply filter_StronglySorted.
Qed.

Lemma extract_text_by_page_pages_witness :
  map snd (pages_of example_world (py "a.pdf")) =
  filter (fun text => negb (is_empty (strip text))) [example_page].
Proof.
  apply (proj1 (proj1 (proj2 (proj2
           (extract_text_by_page_pages example_world (py "a.pdf") [])))
           [example_page] eq_refl)).
Defined.

(** ** process_documents and main *)











(** ** extract_title_from_text: what the title always is *)

Lemma truncate_title_nonempty (candidate : str) (max_length : Z) :
  candidate <> [] -> truncate_title candidate max_length <> [].
Proof.
  intros H. unfold truncate_title.
  destruct (max_length <? len candidate); [|assumption].
  intros E. apply app_eq_nil in E. destruct E as [_ E]. discriminate.
Qed.

Lemma truncate_title_no_NL (candidate : str) (max_length : Z) :
  ~ In NL candidate -> ~ In NL (truncate_title candidate max_length).
Proof.
  intros H. unfold truncate_title.
  destruct (max_length <? len candidate); [|assumption].
  intros Hin. apply in_app_or in Hin. destruct Hin as [Hin | Hin].
  - apply H. unfold slice_to in Hin.
    destruct (max_length - 3 <? 0); eapply firstn_In; exact Hin.
  - cbn in Hin. intuition discriminate.
Qed.

Lemma replace_char_no_NL (s : str) : ~ In NL (replace_char NL SP s).
Proof.
  unfold replace_char. intros H. apply in_map_iff in H.
  destruct H as [c [E _]]. destruct (Ascii.eqb c NL) eqn:Ec; [discriminate|].
  subst c. now rewrite Ascii.eqb_refl in Ec.
Qed.

Lemma strip_no_NL (s : str) : ~ In NL s -> ~ In NL (strip s).
Proof.
  intros H Hin. apply H.
  assert (F : Forall (fun c => In c s) (strip s)).
  { apply strip_Forall, Forall_forall. auto. }
  rewrite Forall_forall in F. now apply F.
Qed.

Lemma strip_nonempty (c : ascii) (s : str) :
  isspace c = false -> strip (c :: s) <> [].
Proof.
  intros Hc. unfold strip. cbn [lstrip]. rewrite Hc. cbn [rstrip].
  destruct (rstrip s); [rewrite Hc|]; discriminate.
Qed.

Lemma title_of_line_title (line : str) (max_length : Z) (title : str) :
  title_of_line line max_length = Some title -> title <> [] /\ ~ In NL title.
Proof.
  unfold title_of_line. cbv zeta.
  destruct (strip line) as [|c r] eqn:Es; [discriminate|].
  repeat match goal with
         | |- (if ?b then _ else _) = _ -> _ => destruct b; [|discriminate]
         end.
  intros E. injection E as <-.
  pose proof (strip_head line) as Hc. rewrite Es in Hc. cbn in Hc.
  split.
  - apply truncate_title_nonempty. unfold replace_char. cbn [map].
    destruct (Ascii.eqb c NL) eqn:Ec.
    + apply Ascii.eqb_eq in Ec. subst c. discriminate.
    + now apply strip_nonempty.
  - apply truncate_title_no_NL, strip_no_NL. exact (replace_char_no_NL (c :: r)).
Qed.

Lemma first_title_title (lines : list str) (max_length : Z) (title : str) :
  first_title lines max_length = Some title -> title <> [] /\ ~ In NL title.
Proof.
  induction lines as [|line rest IH]; cbn [first_title]; [discriminate|].
  destruct (title_of_line line max_length) as [t|] eqn:E; [|exact IH].
  intros H. injection H as <-. eapply title_of_line_title. exact E.
Qed.

(** X12: the title returned by [extract_title_from_text] is never empty and
    never contains a newline, whatever the text and [max_length] are. *)
Theorem extract_title_never_empty (text : str) (max_length : Z) :
  extract_title_from_text text max_length <> [] /\
  ~ In NL (extract_title_from_text text max_length).
Proof.
  unfold extract_title_from_text. cbv zeta.
  destruct (first_title (slice_to 5 (split_on [NL] (clean_text text))) max_length)
    as [t|] eqn:E; [eapply first_title_title; exact E|].
  destruct (fallback_title (clean_text text) max_length) as [|c r] eqn:F; cbn [is_empty].
  - split; [discriminate|]. cbn. intuition discriminate.
  - split; [discriminate|]. rewrite <- F. unfold fallback_title. cbv zeta.
    apply truncate_title_no_NL, replace_char_no_NL.
Qed.

Lemma join_nonempty (sep x : str) (l : list str) :
  x <> [] -> join sep (x :: l) <> [].
Proof.
  intros Hx. cbn [join]. destruct l; [assumption|].
  intros E. apply app_eq_nil in E. now destruct E.
Qed.

Lemma fallback_title_nonempty (text : str) (max_length : Z) :
  text <> [] -> strip text = text -> fallback_title text max_length <> [].
Proof.
  intros Hn Hs. unfold fallback_title. cbv zeta. apply truncate_title_nonempty.
  destruct text as [|c s]; [congruence|].
  pose proof (strip_head (c :: s)) as Hc. rewrite Hs in Hc.
  assert (N : starts_with_char nonspace (c :: s) = true).
  { cbn in *. unfold nonspace. now rewrite Hc. }
  destruct (runs_starts nonspace _ N) as [w [ws E]].
  pose proof (runs_elements nonspace (c :: s)) as R. rewrite E in R.
  inversion R as [|w' ws' [Hw _] _]; subst.
  unfold split. rewrite E. rewrite slice_to_nonneg by lia. cbn [Z.to_nat firstn].
  change (firstn (Pos.to_nat 12) (w :: ws)) with (w :: firstn 11 ws).
  intros H. unfold replace_char in H. apply map_eq_nil in H.
  revert H. now apply join_nonempty.
Qed.

(** X13: when the normalised text has more than 150 characters no line can
    qualify, and the title is the one built from the first twelve words of
    the normalised text, truncated to [max_length]. *)
Theorem extract_title_long_text (text : str) (max_length : Z) :
  150 < len (clean_text text) ->
  extract_title_from_text text max_length =
  fallback_title (clean_text text) max_length.
Proof.
  intros H. unfold extract_title_from_text. cbv zeta.
  rewrite (split_on_no_NL [] (clean_text text)) by apply clean_text_no_NL.
  rewrite slice_to_nonneg by lia. cbn [Z.to_nat firstn].
  change (firstn (Pos.to_nat 5) [clean_text text]) with [clean_text text].
  cbn [first_title]. unfold title_of_line. cbv zeta.
  rewrite clean_text_stripped.
  assert (L : (len (clean_text text) <=? 150) = false) by (apply Z.leb_gt; lia).
  rewrite L, andb_false_r.
  pose proof (fallback_title_nonempty (clean_text text) max_length) as N.
  destruct (fallback_title (clean_text text) max_length) eqn:F; [|reflexivity].
  exfalso. apply N; [|apply clean_text_stripped | reflexivity].
  intros E. rewrite E in H. cbn in H. lia.
Qed.

Lemma extract_title_long_text_witness :
  extract_title_from_text long_text 80 = fallback_title (clean_text long_text) 80.
Proof.
  apply (extract_title_long_text long_text 80). vm_compute. reflexivity.
Defined.

(** ** summarize_text: the shape of a summary *)

Lemma re_split_from_pieces (d : ascii -> bool) (prev : bool) (s : str) :
  Forall (Forall (fun c => d c = false)) (re_split_from d prev s).
Proof.
  revert prev. induction s as [|c s IH]; intros prev; cbn [re_split_from].
  - repeat constructor.
  - destruct (d c) eqn:Hc.
    + destruct prev; [apply IH | constructor; [constructor | apply IH]].
    + specialize (IH false). destruct (re_split_from d false s) as [|w ws].
      * repeat constructor. assumption.
      * inversion IH; subst. constructor; [now constructor | assumption].
Qed.

Lemma join_Forall (P : ascii -> Prop) (sep : str) (l : list str) :
  Forall P sep -> Forall (Forall P) l -> Forall P (join sep l).
Proof.
  intros Hs Hl. induction Hl as [|x l Hx Hl IH]; [constructor|].
  cbn [join]. destruct l as [|y l]; [assumption|].
  apply Forall_app. split; [assumption|]. apply Forall_app. now split.
Qed.

Lemma summary_sentences_pieces (text : str) :
  Forall (Forall (fun c => sentence_end c = false)) (summary_sentences_of text).
Proof.
  unfold summary_sentences_of. apply Forall_forall. intros x Hx.
  apply in_map_iff in Hx. destruct Hx as [s [<- Hs]].
  apply filter_In in Hs. destruct Hs as [Hs _].
  pose proof (re_split_from_pieces sentence_end false text) as F.
  rewrite Forall_forall in F. apply strip_Forall. now apply F.
Qed.

Lemma not_sentence_end (c : ascii) :
  sentence_end c = false -> c <> "!"%char /\ c <> "?"%char.
Proof. intros H. split; intros ->; discriminate. Qed.

(** X14: a summary built from sentences (more than 30 words, more than two
    sentences) ends with a full stop and contains neither an exclamation
    mark nor a question mark: the marks that ended the sentences of the text
    are replaced by full stops. *)
Theorem summary_punctuation (text : str) (max_length : Z) :
  30 < word_count text ->
  2 < len (summary_sentences_of text) ->
  (exists body, summarize_text text max_length = body ++ py ".") /\
  Forall (fun c => c <> "!"%char /\ c <> "?"%char) (summarize_text text max_length).
Proof.
  intros H1 H2. unfold summarize_text. cbv zeta.
  apply Z.leb_gt in H1. apply Z.leb_gt in H2. rewrite H1, H2.
  set (selected := select_sentences max_length 0
                     (scored_sentences text (summary_sentences_of text))).
  assert (P : forall l, (forall s, In s l -> In s (summary_sentences_of text)) ->
                Forall (fun c => c <> "!"%char /\ c <> "?"%char)
                  (join (py ". ") l ++ py ".")).
  { intros l Hl. apply Forall_app. split.
    - apply join_Forall.
      + repeat constructor; discriminate.
      + apply Forall_forall. intros s Hs.
        pose proof (summary_sentences_pieces text) as F.
        rewrite Forall_forall in F. specialize (F s (Hl s Hs)).
        eapply Forall_impl; [|exact F]. apply not_sentence_end.
    - repeat constructor; discriminate. }
  destruct (is_empty selected); (split; [eauto|]); apply P.
  - intros s Hs. unfold slice_to in Hs. cbn in Hs. eapply firstn_In. exact Hs.
  - intros s Hs. apply (scored_sentences_In text).
    eapply select_sentences_In. exact Hs.
Qed.

Lemma summary_punctuation_witness :
  exists body, summarize_text three_sentences 25 = body ++ py ".".
Proof.
  apply (proj1 (summary_punctuation three_sentences 25 eq_refl eq_refl)).
Defined.

(** X15: the loop that builds the summary takes the sentences in score
    order and stops at the first one that does not fit: the selection is a
    prefix of the sorted sentences, and a later sentence is never taken,
    even when it would fit. *)
Theorem select_sentences_prefix (max_length current_length : Z)
  (sentence_scores : list (str * float)) :
  exists n,
    select_sentences max_length current_length sentence_scores =
      firstn n (map fst sentence_scores) /\
    forall s, nth_error (map fst sentence_scores) n = Some s ->
      max_length <
      current_length +
      total_words (select_sentences max_length current_length sentence_scores) +
      word_count s.
Proof.
  revert current_length.
  induction sentence_scores as [|[x sc] l IH]; intros current_length.
  - exists 0%nat. split; [reflexivity|]. discriminate.
  - cbn [select_sentences].
    destruct (Z.leb_spec (current_length + word_count x) max_length) as [Hle|Hgt].
    + destruct (IH (current_length + word_count x)) as [n [E N]].
      exists (S n). cbn [map fst firstn nth_error]. split; [now rewrite E|].
      intros s Hs. rewrite total_words_cons. specialize (N s Hs). lia.
    + exists 0%nat. split; [reflexivity|]. cbn. intros s E. injection E as <-. lia.
Qed.

(** ** The first rank *)

(** X16: when at least one section was scored and [top_k] is at least 1,
    the section ranked first is one of the scored sections and no scored
    section has a higher score. *)
Theorem first_rank_has_highest_score
  (all_scored_sections : list scored_section) (top_k : Z)
  (job_task persona_role : str) :
  1 <= top_k -> all_scored_sections <> [] ->
  Forall (fun r => ss_score r =
                   calculate_relevance_score (ss_text r) job_task persona_role)
    all_scored_sections ->
  exists best rest,
    rank_sections all_scored_sections top_k = best :: rest /\
    In best all_scored_sections /\
    Forall (fun r => fle (ss_score r) (ss_score best) = true) all_scored_sections.
Proof.
  intros Hk Hne Hs.
  assert (N : Forall (fun r => is_nan (ss_score r) = false) all_scored_sections).
  { eapply Forall_impl; [|exact Hs]. intros r ->.
    apply (fle_not_nan F0_0), calculate_relevance_score_nonneg. }
  pose proof (sort_desc_perm score_gt all_scored_sections) as P.
  assert (Srt : StronglySorted (fun a b => fle (ss_score b) (ss_score a) = true)
                (sort_desc score_gt all_scored_sections)).
  { apply sort_desc_sorted with (ok := fun r => is_nan (ss_score r) = false).
    - intros x y G. now apply flt_fle.
    - intros x y Hx Hy G. now apply fle_total.
    - intros x y z Hxy Hyz. now apply fle_trans with (ss_score y).
    - exact N. }
  unfold rank_sections. cbv zeta. fold score_gt.
  rewrite slice_to_nonneg by lia.
  destruct (sort_desc score_gt all_scored_sections) as [|best l] eqn:E.
  - apply Permutation_nil in P. contradiction.
  - exists best, (firstn (Nat.pred (Z.to_nat top_k)) l).
    assert (Hin : In best all_scored_sections).
    { apply (Permutation_in _ P). now left. }
    split; [|split; [exact Hin|]].
    + replace (Z.to_nat top_k) with (S (Nat.pred (Z.to_nat top_k))) at 1 by lia.
      reflexivity.
    + inversion Srt as [|b l' Sl Fl]; subst.
      apply Forall_forall. intros r Hr.
      apply (Permutation_in _ (Permutation_sym P)) in Hr.
      destruct Hr as [<- | Hr].
      * apply fle_refl. rewrite Forall_forall in N. now apply N.
      * rewrite Forall_forall in Fl. now apply Fl.
Qed.

Lemma first_rank_has_highest_score_witness :
  exists best rest,
    rank_sections example_sections 2 = best :: rest /\
    In best example_sections /\
    Forall (fun r => fle (ss_score r) (ss_score best) = true) example_sections.
Proof.
  apply (first_rank_has_highest_score example_sections 2 example_task example_persona).
  - lia.
  - discriminate.
  - repeat constructor.
Defined.

(** ** Where the entries of the output come from *)







Lemma select_sentences_prefix_witness :
  exists n,
    select_sentences 25 0 [(py "a b c d", F1_0); (py "e", F0_5)] =
      firstn n (map fst [(py "a b c d", F1_0); (py "e", F0_5)]) /\
    forall s, nth_error (map fst [(py "a b c d", F1_0); (py "e", F0_5)]) n = Some s ->
      25 < 0 + total_words
                 (select_sentences 25 0 [(py "a b c d", F1_0); (py "e", F0_5)]) +
           word_count s.
Proof.
  exact (select_sentences_prefix 25 0 [(py "a b c d", F1_0); (py "e", F0_5)]).
Defined.

(** ** Examples *)

Example clean_text_example :
  clean_text (py "  Hello,   world!  ") = py "Hello, world!".
Proof. reflexivity. Qed.

Example split_example : split (py " ab  c d ") = [py "ab"; py "c"; py "d"].
Proof. reflexivity. Qed.

Example split_on_example :
  split_on [NL; NL] (py "ab" ++ [NL; NL; NL] ++ py "c") = [py "ab"; NL :: py "c"].
Proof. reflexivity. Qed.

Example re_split_example :
  re_split sentence_end (py "a. b!? c.") = [py "a"; py " b"; py " c"; []].
Proof. reflexivity. Qed.

Example slice_to_example : slice_to (-1) (py "abc") = py "ab".
Proof. reflexivity. Qed.

Example literal_example :
  F1_2 = S754_finite false 5404319552844595 (-52) /\
  F0_8 = S754_finite false 7205759403792794 (-53) /\
  F1_3 = S754_finite false 5854679515581645 (-52).
Proof. repeat split. Qed.

Example extract_keywords_example :
  extract_keywords (py "Create onboarding forms for new employees, the forms and forms!") =
  [py "forms"; py "create"; py "onboarding"; py "new"; py "employees"].
Proof. vm_compute. reflexivity. Qed.

(** Task "create onboarding forms", persona "HR Manager": the section below
    scores (3 * 2.0 + 0 * 1.5 + (2 + 1 + 2) * 1.0 + 1 * 1.5) * 0.8 * 1.3 = 13.0. *)
Example calculate_relevance_score_example :
  calculate_relevance_score (py "how to create onboarding forms")
    example_task example_persona = of_int 13.
Proof. vm_compute. reflexivity. Qed.

Example split_sections_example :
  split_sections example_page 15 =
  [ example_page;
    py "One two three four five six seven eight nine ten eleven twelve thirteen fourteen fifteen." ].
Proof. vm_compute. reflexivity. Qed.

Example summarize_text_example :
  summarize_text three_sentences 25 =
  py "a1 a2 a3 a4 a5 a6 a7 a8 a9 a10 a11. b1 b2 b3 b4 b5 b6 b7 b8 b9 b10 b11.".
Proof. vm_compute. reflexivity. Qed.

Example extract_title_example :
  extract_title_from_text (py "alpha beta gamma delta epsilon") 10 = py "alpha b...".
Proof. vm_compute. reflexivity. Qed.

(** Two sections of equal score keep their order behind the better one. *)
Example rank_sections_example :
  map (fun r => (ss_document r, ss_page_number r)) (rank_sections example_sections 3) =
  [ (py "b.pdf", 3); (py "a.pdf", 1); (py "b.pdf", 2) ].
Proof. vm_compute. reflexivity. Qed.
